(** * Order routes of the e-commerce backend

    A shallow embedding of [src/routes/api/order-routes.ts]: the six
    handlers of the order router, run one request at a time against a
    store holding the [Product], [Order], [OrderItem] and [User] tables.

    Conventions of the embedding.
    - JavaScript numbers that hold identifiers, prices, stocks and
      quantities are integers ([Z]); no rounding is modelled.
    - A request is well formed: the body of a CreateOrder request holds a
      list of items with an integer [productId] and [quantity].  Other
      bodies, which end in the [catch] of the handler, are not covered.
    - A handler is a function from the store to the new store and the list
      of its effects, in order: the responses the client receives, the
      e-mails sent and the errors logged.  [res.status(c).json(b)] sends a
      response when none has been sent for the request and throws
      otherwise ([res_json]); the one call of a path that makes no other is
      written as the response it sends.
    - Persistence calls and [sendEmail] do not throw.  The middlewares
      [isAdmin] and [verifyToken] run before the handlers and are not part
      of them.
    - A route parameter ([req.params.id], [req.params.userId]) is a string;
      how the persistence layer reads it as an integer key, and what
      [parseInt] reads in it, are the section variables [key_of_param] and
      [parseInt]. *)

From stdpp Require Import gmap strings pretty list fin_maps.
From Stdlib Require Import ZArith Lia Ascii.

Local Open Scope Z_scope.

(** ** Tables *)

Record Product := mkProduct { price : Z; stock : Z }.

Record Order := mkOrder { userId : Z; totalPrice : Z; status : string }.

Record OrderItem := mkOrderItem {
  oi_orderId : Z;
  oi_productId : Z;
  oi_quantity : Z;
  oi_price : Z
}.

Record User := mkUser { name : string; email : string; role : string }.

(** Products, orders and users are keyed by their primary key; the
    [OrderItem] rows are kept in insertion order.  [nextOrderId] is the
    auto-increment counter of the [Order] table. *)
Record Store := mkStore {
  products : gmap Z Product;
  orders : gmap Z Order;
  orderItems : list OrderItem;
  users : gmap Z User;
  nextOrderId : Z
}.

Definition set_products (ps : gmap Z Product) (st : Store) : Store :=
  mkStore ps (orders st) (orderItems st) (users st) (nextOrderId st).

Definition set_orders (os : gmap Z Order) (st : Store) : Store :=
  mkStore (products st) os (orderItems st) (users st) (nextOrderId st).

Definition set_orderItems (l : list OrderItem) (st : Store) : Store :=
  mkStore (products st) (orders st) l (users st) (nextOrderId st).

Definition set_stock (s : Z) (p : Product) : Product := mkProduct (price p) s.

Definition set_status (s : string) (o : Order) : Order :=
  mkOrder (userId o) (totalPrice o) s.

(** ** Requests, responses and effects *)

(** One element of [req.body.products]. *)
Record Item := mkItem { productId : Z; quantity : Z }.

(** [req.user], attached by [verifyToken]. *)
Record Caller := mkCaller { c_id : Z; c_email : string; c_role : string }.

(** The attributes of the join row that an [include] selects. *)
Record Through := mkThrough { th_quantity : Z; th_price : option Z }.

(** An order loaded with its [User] (id, name, email) and its [Product]s. *)
Record OrderFull := mkOrderFull {
  of_id : Z;
  of_order : Order;
  of_user : option (Z * string * string);
  of_products : list (Z * Product * Through)
}.

Inductive Body :=
| BError (error : string)
| BOrder (o : option OrderFull)
| BOrders (os : list OrderFull)
| BOrderRow (id : Z) (o : Order)
| BDeleted (message : string) (deleted : Z).

Inductive Event :=
| Respond (code : Z) (body : Body)
| SendEmail (to subject text : string)
| LogError (message : string).

(** [res.headersSent]: a response has been sent for the request. *)
Definition headersSent (evs : list Event) : bool :=
  existsb (λ e, match e with Respond _ _ => true | _ => false end) evs.

(** How a block of a handler ends: it returns, or an exception leaves it;
    either way with the effects made so far. *)
Inductive Outcome :=
| Returned (evs : list Event)
| Thrown (evs : list Event).

(** [res.status(code).json(body)]: the response is sent, unless one has
    been sent already, in which case the call throws. *)
Definition res_json (evs : list Event) (code : Z) (body : Body) : Outcome :=
  if headersSent evs then Thrown evs else Returned (evs ++ [Respond code body]).

(** The [catch] of a handler: the error is logged and a 500 is attempted.
    An exception of that last call leaves the handler; what the framework
    makes of it is not part of the router. *)
Definition catch_500 (message : string) (o : Outcome) : list Event :=
  match o with
  | Returned evs => evs
  | Thrown evs =>
      match res_json (evs ++ [LogError message]) 500 (BError "Internal server error") with
      | Returned evs' | Thrown evs' => evs'
      end
  end.

(** ** A reading of route parameters, for the examples *)

Definition is_space (a : ascii) : bool :=
  let n := nat_of_ascii a in
  bool_decide (n = 32 ∨ (9 ≤ n ∧ n ≤ 13))%nat.

Fixpoint trim_start (s : string) : string :=
  match s with
  | String a r => if is_space a then trim_start r else s
  | EmptyString => s
  end.

Definition digit_of (radix : Z) (a : ascii) : option Z :=
  let n := Z.of_nat (nat_of_ascii a) in
  let d := if bool_decide (48 ≤ n ≤ 57) then Some (n - 48)
           else if bool_decide (97 ≤ n ≤ 122) then Some (n - 87)
           else if bool_decide (65 ≤ n ≤ 90) then Some (n - 55)
           else None in
  match d with
  | Some v => if bool_decide (v < radix) then Some v else None
  | None => None
  end.

(** The longest prefix of digits, read in the radix; [None] when there is
    no digit at all. *)
Fixpoint read_digits (radix : Z) (acc : option Z) (s : string) : option Z :=
  match s with
  | String a r =>
      match digit_of radix a with
      | Some d => read_digits radix (Some (default 0 acc * radix + d)) r
      | None => acc
      end
  | EmptyString => acc
  end.

(** The integer written at the start of a string: white space, a sign,
    then decimal digits or, after 0x, hexadecimal ones; [None] when there
    is no digit.  The examples read route parameters with it. *)
Definition decimal_key (s : string) : option Z :=
  let s1 := trim_start s in
  let '(sign, s2) :=
    match s1 with
    | String "-"%char r => (-1, r)
    | String "+"%char r => (1, r)
    | _ => (1, s1)
    end in
  let '(radix, s3) :=
    match s2 with
    | String "0"%char (String "x"%char r)
    | String "0"%char (String "X"%char r) => (16, r)
    | _ => (10, s2)
    end in
  (λ n, sign * n) <$> read_digits radix None s3.

(** ** The first loop of [router.post "/"] (lines 73-86) *)

Inductive Reserved :=
| Insufficient (ps : gmap Z Product) (id : Z)
| Reserved_ok (ps : gmap Z Product) (total : Z).

(** Walks the requested items: a missing product is passed over, an item
    asking for more than the stock stops the loop, otherwise the price is
    added to the total and the decremented product is saved. *)
Fixpoint reserve (ps : gmap Z Product) (total : Z) (items : list Item) : Reserved :=
  match items with
  | [] => Reserved_ok ps total
  | it :: rest =>
      match ps !! productId it with
      | None => reserve ps total rest
      | Some p =>
          if stock p <? quantity it then Insufficient ps (productId it)
          else reserve (<[productId it := set_stock (stock p - quantity it) p]> ps)
                       (total + price p * quantity it) rest
      end
  end.

(** ** The second loop of [router.post "/"] (lines 96-106) *)

Fixpoint create_items (st : Store) (oid : Z) (items : list Item) : Store :=
  match items with
  | [] => st
  | it :: rest =>
      match products st !! productId it with
      | None => create_items st oid rest
      | Some p =>
          create_items
            (set_orderItems
               (orderItems st ++ [mkOrderItem oid (productId it) (quantity it) (price p)]) st)
            oid rest
      end
  end.

(** [Order.create]: the row gets the next identifier. *)
Definition Order_create (st : Store) (o : Order) : Store * Z :=
  let id := nextOrderId st in
  (mkStore (products st) (<[id := o]> (orders st)) (orderItems st) (users st) (id + 1), id).

(** ** The loop of [router.delete "/:id"] (lines 161-167) *)

Fixpoint restore_stock (ps : gmap Z Product) (items : list OrderItem) : gmap Z Product :=
  match items with
  | [] => ps
  | oi :: rest =>
      match ps !! oi_productId oi with
      | Some p =>
          restore_stock (<[oi_productId oi := set_stock (stock p + oi_quantity oi) p]> ps) rest
      | None => restore_stock ps rest
      end
  end.

(** ** Eager loading *)

Definition include_user (st : Store) (o : Order) : option (Z * string * string) :=
  (λ u, (userId o, name u, email u)) <$> users st !! userId o.

(** One more join row for product [pid] in the list built so far: a
    product already listed keeps its place and takes the attributes of the
    new row, a new product goes to the end. *)
Fixpoint fold_row (pid : Z) (p : Product) (th : Through)
    (acc : list (Z * Product * Through)) : list (Z * Product * Through) :=
  match acc with
  | [] => [(pid, p, th)]
  | e :: rest =>
      if bool_decide (e.1.1 = pid) then (pid, p, th) :: rest
      else e :: fold_row pid p th rest
  end.

(** The products joined to an order through its [OrderItem] rows, one
    entry per product; [with_price] tells whether the join row's price is
    selected too. *)
Definition include_products (with_price : bool) (st : Store) (oid : Z)
  : list (Z * Product * Through) :=
  foldl (λ acc oi,
           if bool_decide (oi_orderId oi = oid) then
             match products st !! oi_productId oi with
             | Some p =>
                 fold_row (oi_productId oi) p
                   (mkThrough (oi_quantity oi)
                              (if with_price then Some (oi_price oi) else None))
                   acc
             | None => acc
             end
           else acc)
        [] (orderItems st).

Definition load (with_price : bool) (st : Store) (id : Z) (o : Order) : OrderFull :=
  mkOrderFull id o (include_user st o) (include_products with_price st id).

(** [Order.findAll] with the two includes: always a collection. *)
Definition Order_findAll (st : Store) : list OrderFull :=
  (λ kv, load false st kv.1 kv.2) <$> map_to_list (orders st).

(** Lines 26-30: what the handler answers on the query's result, [None]
    being a [null] or [undefined] result. *)
Definition listOrders_respond (result : option (list OrderFull)) : list Event :=
  match result with
  | None => [Respond 404 (BError "No orders found")]
  | Some os => [Respond 200 (BOrders os)]
  end.

(** [router.get "/"] *)
Definition listOrders (st : Store) : Store * list Event :=
  (st, listOrders_respond (Some (Order_findAll st))).

Definition insufficient_message (id : Z) : string :=
  "Insufficient stock for product ID " +:+ pretty id.

Definition confirmation_text (oid total : Z) : string :=
  "Your order has been placed successfully. Order ID: " +:+ pretty oid
    +:+ ". Total Price: $" +:+ pretty total +:+ ".".

(** [router.post "/"] *)
Definition createOrder (st : Store) (caller : Caller) (items : list Item)
  : Store * list Event :=
  match reserve (products st) 0 items with
  | Insufficient ps id =>
      (set_products ps st, [Respond 400 (BError (insufficient_message id))])
  | Reserved_ok ps total =>
      let '(st1, oid) :=
        Order_create (set_products ps st) (mkOrder (c_id caller) total "pending") in
      let st2 := create_items st1 oid items in
      let fullOrder := load true st2 oid <$> orders st2 !! oid in
      (st2, [Respond 201 (BOrder fullOrder);
             SendEmail (c_email caller) "Order Confirmation" (confirmation_text oid total)])
  end.

Section Routes.

(** The integer key that the persistence layer reads in a route
    parameter; [None] when the parameter matches no row. *)
Variable key_of_param : string → option Z.

(** What [parseInt] makes of a route parameter: the integer it reads, or
    [None] when its result is no finite number, which no requester's
    identifier equals. *)
Variable parseInt : string → option Z.

Definition Order_findByPk (st : Store) (param : string) : option (Z * Order) :=
  k ← key_of_param param; (λ o, (k, o)) <$> orders st !! k.

(** [OrderItem.findAll({ where: { orderId } })] *)
Definition OrderItem_findAll (st : Store) (param : string) : list OrderItem :=
  filter (λ oi, key_of_param param = Some (oi_orderId oi)) (orderItems st).

(** [OrderItem.destroy({ where: { orderId } })] *)
Definition OrderItem_destroy (st : Store) (param : string) : Store :=
  set_orderItems
    (filter (λ oi, key_of_param param ≠ Some (oi_orderId oi)) (orderItems st)) st.

(** [Order.destroy({ where: { id } })], with the number of rows removed. *)
Definition Order_destroy (st : Store) (param : string) : Store * Z :=
  match Order_findByPk st param with
  | Some (k, _) => (set_orders (delete k (orders st)) st, 1)
  | None => (st, 0)
  end.

(** [router.get "/:id"] *)
Definition getOrder (st : Store) (orderId : string) : Store * list Event :=
  match Order_findByPk st orderId with
  | Some (k, o) => (st, [Respond 200 (BOrder (Some (load false st k o)))])
  | None => (st, [Respond 404 (BError "Order not found")])
  end.

(** [router.put "/:id"] *)
Definition updateOrderStatus (st : Store) (orderId status : string)
  : Store * list Event :=
  match Order_findByPk st orderId with
  | Some (k, o) =>
      let o' := set_status status o in
      (set_orders (<[k := o']> (orders st)) st, [Respond 200 (BOrderRow k o')])
  | None => (st, [Respond 404 (BError "Order not found")])
  end.

Definition cancellation_text (orderId : string) : string :=
  "Your order with ID " +:+ orderId +:+ " has been cancelled.".

(** [router.delete "/:id"] *)
Definition deleteOrder (st : Store) (orderId : string) : Store * list Event :=
  let order := Order_findByPk st orderId in
  let items := OrderItem_findAll st orderId in
  match order with
  | None => (st, [Respond 404 (BError "Order not found")])
  | Some (_, o) =>
      let st1 := set_products (restore_stock (products st) items) st in
      let st2 := OrderItem_destroy st1 orderId in
      let '(st3, deleted) := Order_destroy st2 orderId in
      (st3,
       Respond 200 (BDeleted "Order Deleted" deleted)
         :: match users st3 !! userId o with
            | Some u =>
                [SendEmail (email u) "Order Cancellation" (cancellation_text orderId)]
            | None => []
            end)
  end.

(** [Order.findAll({ where: { userId }, include })] *)
Definition Order_findAll_user (st : Store) (param : string) : list OrderFull :=
  (λ kv, load false st kv.1 kv.2)
    <$> filter (λ kv, key_of_param param = Some (userId kv.2)) (map_to_list (orders st)).

(** The test of line 195. *)
Definition forbidden (userId : string) (caller : Caller) : bool :=
  negb (bool_decide (parseInt userId = Some (c_id caller)))
  && negb (bool_decide (c_role caller = "admin")).

(** The [try] block of [router.get "/user-orders/:userId"]: the branch of
    the test of line 195 has no [return], so the 200 call of line 211 is
    made after the 403 as well. *)
Definition listOrdersForUser_try (st : Store) (userId : string) (caller : Caller)
  : Outcome :=
  let refused :=
    if forbidden userId caller
    then res_json [] 403 (BError "Forbidden: not your order")
    else Returned [] in
  match refused with
  | Thrown evs => Thrown evs
  | Returned evs => res_json evs 200 (BOrders (Order_findAll_user st userId))
  end.

(** [router.get "/user-orders/:userId"] *)
Definition listOrdersForUser (st : Store) (userId : string) (caller : Caller)
  : Store * list Event :=
  (st, catch_500 "Error fetching orders for user:" (listOrdersForUser_try st userId caller)).

(** ** The service *)

Inductive Request :=
| ListOrders
| GetOrder (orderId : string)
| CreateOrder (caller : Caller) (items : list Item)
| UpdateOrderStatus (orderId status : string)
| DeleteOrder (orderId : string)
| ListOrdersForUser (userId : string) (caller : Caller).

Definition handle (st : Store) (r : Request) : Store * list Event :=
  match r with
  | ListOrders => listOrders st
  | GetOrder id => getOrder st id
  | CreateOrder c items => createOrder st c items
  | UpdateOrderStatus id s => updateOrderStatus st id s
  | DeleteOrder id => deleteOrder st id
  | ListOrdersForUser u c => listOrdersForUser st u c
  end.

(** Requests served one after the other. *)
Fixpoint serve (st : Store) (rs : list Request) : Store :=
  match rs with
  | [] => st
  | r :: rest => serve (handle st r).1 rest
  end.

End Routes.

(** ** Quantities the statements speak of *)

(** The total quantity that the items of a request ask of product [k]. *)
Fixpoint demand (k : Z) (items : list Item) : Z :=
  match items with
  | [] => 0
  | it :: rest => (if bool_decide (productId it = k) then quantity it else 0) + demand k rest
  end.

(** The sum of price * quantity over the items whose product exists. *)
Fixpoint charged (ps : gmap Z Product) (items : list Item) : Z :=
  match items with
  | [] => 0
  | it :: rest =>
      match ps !! productId it with
      | Some p => price p * quantity it
      | None => 0
      end + charged ps rest
  end.

(** The total quantity that the given [OrderItem] rows hold of product [k]. *)
Fixpoint returned (k : Z) (ois : list OrderItem) : Z :=
  match ois with
  | [] => 0
  | oi :: rest =>
      (if bool_decide (oi_productId oi = k) then oi_quantity oi else 0) + returned k rest
  end.

(** The [OrderItem] rows of order [k]. *)
Definition items_of (k : Z) (st : Store) : list OrderItem :=
  filter (λ oi, oi_orderId oi = k) (orderItems st).

(** Every item whose product exists finds enough stock when the loop
    reaches it: the stock the request met, less what the earlier items of
    the request took of the same product, covers its quantity. *)
Definition reaches_enough (ps : gmap Z Product) (items : list Item) : Prop :=
  ∀ a x b p, items = a ++ x :: b → ps !! productId x = Some p →
             quantity x ≤ stock p - demand (productId x) a.

(** Stocks after the items took their quantities. *)
Definition debited (ps ps' : gmap Z Product) (items : list Item) : Prop :=
  ∀ k, ps' !! k = (λ p, set_stock (stock p - demand k items) p) <$> ps !! k.

(** Stocks after the rows gave their quantities back. *)
Definition credited (ps ps' : gmap Z Product) (ois : list OrderItem) : Prop :=
  ∀ k, ps' !! k = (λ p, set_stock (stock p + returned k ois) p) <$> ps !! k.

(** The first item that, against the stocks the request meets, asks for
    more than its product holds. *)
Definition short_of (ps : gmap Z Product) (it : Item) : bool :=
  match ps !! productId it with
  | Some p => bool_decide (stock p < quantity it)
  | None => false
  end.

Definition first_short (ps : gmap Z Product) (items : list Item) : option Item :=
  List.find (short_of ps) items.

(** The rows that the second loop appends. *)
Definition rows_of (ps : gmap Z Product) (oid : Z) (items : list Item) : list OrderItem :=
  omap (λ it, (λ p, mkOrderItem oid (productId it) (quantity it) (price p))
                <$> ps !! productId it) items.

Definition nonneg_stocks (ps : gmap Z Product) : Prop :=
  map_Forall (λ _ p, 0 ≤ stock p) ps.

Definition stock_nonneg (st : Store) : Prop := nonneg_stocks (products st).

Definition quantities_nonneg (st : Store) : Prop :=
  Forall (λ oi, 0 ≤ oi_quantity oi) (orderItems st).

Definition request_nonneg (r : Request) : Prop :=
  match r with
  | CreateOrder _ items => Forall (λ it, 0 ≤ quantity it) items
  | _ => True
  end.

(** ** A small shop, for the examples *)

Definition shop : Store :=
  mkStore {[ 1 := mkProduct 10 5; 2 := mkProduct 7 1 ]} ∅ []
          {[ 9 := mkUser "ann" "ann@example.org" "customer" ]} 1.

Definition ann : Caller := mkCaller 9 "ann@example.org" "customer".

Definition bob : Caller := mkCaller 8 "bob@example.org" "customer".

(** The shop after ann ordered two of product 1 and one of product 2. *)
Definition shop_ordered : Store := (createOrder shop ann [mkItem 1 2; mkItem 2 1]).1.

(** The shop after ann ordered product 1 in two items of one piece each. *)
Definition shop_twice : Store := (createOrder shop ann [mkItem 1 1; mkItem 1 1]).1.

(** The status codes of the responses among the effects. *)
Definition codes (evs : list Event) : list Z :=
  omap (λ e, match e with Respond c _ => Some c | _ => None end) evs.

(** ** Invariants of the store *)

(** Every order, and every order item's order, has an identifier below
    the counter of the [Order] table. *)
Definition ids_below (st : Store) : Prop :=
  map_Forall (λ k _, k < nextOrderId st) (orders st)
  ∧ Forall (λ oi, oi_orderId oi < nextOrderId st) (orderItems st).

(** Every order item belongs to a stored order and names a stored product. *)
Definition items_linked (st : Store) : Prop :=
  Forall (λ oi, is_Some (orders st !! oi_orderId oi)
                ∧ is_Some (products st !! oi_productId oi))
         (orderItems st).

(** The sum of price * quantity over order item rows. *)
Fixpoint order_value (ois : list OrderItem) : Z :=
  match ois with
  | [] => 0
  | oi :: rest => oi_price oi * oi_quantity oi + order_value rest
  end.

(** Every order's totalPrice is the value of its order items. *)
Definition totals_match (st : Store) : Prop :=
  map_Forall (λ k o, totalPrice o = order_value (items_of k st)) (orders st).

(** The recipients of the e-mails among the effects. *)
Definition mails (evs : list Event) : list string :=
  omap (λ e, match e with SendEmail to _ _ => Some to | _ => None end) evs.

(** ** The loops *)

Lemma set_stock_id p : set_stock (stock p) p = p.
Proof. by destruct p. Qed.

Lemma demand_app k a b : demand k (a ++ b) = demand k a + demand k b.
Proof. induction a as [|x a IH]; simpl; lia. Qed.

Lemma charged_app ps a b : charged ps (a ++ b) = charged ps a + charged ps b.
Proof. induction a as [|x a IH]; simpl; lia. Qed.

Lemma returned_app k a b : returned k (a ++ b) = returned k a + returned k b.
Proof. induction a as [|x a IH]; simpl; lia. Qed.

Lemma demand_absent k items :
  k ∉ productId <$> items → demand k items = 0.
Proof.
  induction items as [|x items IH]; simpl; [done|].
  rewrite not_elem_of_cons. intros [Hx Hin].
  rewrite bool_decide_eq_false_2 by done. rewrite IH by done. lia.
Qed.

Lemma returned_absent k ois :
  k ∉ oi_productId <$> ois → returned k ois = 0.
Proof.
  induction ois as [|x ois IH]; simpl; [done|].
  rewrite not_elem_of_cons. intros [Hx Hin].
  rewrite bool_decide_eq_false_2 by done. rewrite IH by done. lia.
Qed.

Lemma reserve_app ps t a b :
  reserve ps t (a ++ b) =
  match reserve ps t a with
  | Insufficient ps' id => Insufficient ps' id
  | Reserved_ok ps' t' => reserve ps' t' b
  end.
Proof.
  revert ps t. induction a as [|x a IH]; intros ps t; simpl; [done|].
  destruct (ps !! productId x) as [p|]; [|apply IH].
  destruct (stock p <? quantity x); [done|apply IH].
Qed.

Lemma reaches_enough_prefix ps a b :
  reaches_enough ps (a ++ b) → reaches_enough ps a.
Proof.
  intros H a' x b' p -> Hp.
  apply (H a' x (b' ++ b) p); [|done]. by rewrite <- app_assoc.
Qed.

Lemma debited_nil ps : debited ps ps [].
Proof.
  intros k. simpl. destruct (ps !! k) as [p|]; simpl; [|done].
  by rewrite Z.sub_0_r, set_stock_id.
Qed.

(** When every item finds enough stock, the first loop runs to its end. *)
Lemma reserve_enough items ps t :
  reaches_enough ps items →
  ∃ ps', reserve ps t items = Reserved_ok ps' (t + charged ps items)
         ∧ debited ps ps' items.
Proof.
  induction items as [|x items IH] using rev_ind; intros Hall.
  - exists ps. simpl. rewrite Z.add_0_r. split; [done|apply debited_nil].
  - destruct (IH (reaches_enough_prefix _ _ _ Hall)) as (ps1 & Hrun & Hdeb).
    rewrite reserve_app, Hrun, charged_app. simpl.
    rewrite (Hdeb (productId x)).
    destruct (ps !! productId x) as [p|] eqn:Hp; simpl.
    + pose proof (Hall items x [] p eq_refl Hp) as Hle.
      destruct (Z.ltb_spec (stock p - demand (productId x) items) (quantity x)); [lia|].
      eexists. split; [f_equal; lia|].
      intros k. rewrite demand_app. simpl.
      destruct (decide (productId x = k)) as [<-|Hne].
      * rewrite lookup_insert_eq, Hp, bool_decide_eq_true_2 by done. simpl.
        unfold set_stock. simpl. do 2 f_equal. lia.
      * rewrite lookup_insert_ne, bool_decide_eq_false_2 by done.
        rewrite (Hdeb k). destruct (ps !! k); simpl; [|done].
        do 2 f_equal. lia.
    + exists ps1. split; [f_equal; lia|].
      intros k. rewrite demand_app. simpl. rewrite (Hdeb k).
      destruct (ps !! k) as [q|] eqn:Hq; simpl; [|done].
      rewrite bool_decide_eq_false_2 by congruence. do 2 f_equal. lia.
Qed.

(** The first loop stops at the first item that finds too little stock. *)
Lemma reserve_short pre it post ps t p :
  reaches_enough ps pre →
  ps !! productId it = Some p →
  stock p - demand (productId it) pre < quantity it →
  ∃ ps', reserve ps t (pre ++ it :: post) = Insufficient ps' (productId it)
         ∧ debited ps ps' pre.
Proof.
  intros Hpre Hp Hlt.
  destruct (reserve_enough pre ps t Hpre) as (ps1 & Hrun & Hdeb).
  exists ps1. split; [|done].
  rewrite reserve_app, Hrun. simpl. rewrite (Hdeb (productId it)), Hp. simpl.
  by destruct (Z.ltb_spec (stock p - demand (productId it) pre) (quantity it)); [|lia].
Qed.

(** An item whose product is missing leaves no trace in the first loop. *)
Lemma reserve_missing pre it post ps t :
  ps !! productId it = None →
  reserve ps t (pre ++ it :: post) = reserve ps t (pre ++ post).
Proof.
  revert ps t. induction pre as [|x pre IH]; intros ps t Hnone; simpl.
  - by rewrite Hnone.
  - destruct (ps !! productId x) as [p|] eqn:Hp; [|by apply IH].
    destruct (stock p <? quantity x); [done|].
    apply IH. rewrite lookup_insert_ne; [done|congruence].
Qed.

(** The first loop neither adds nor removes a product. *)
Lemma reserve_domain items ps t k :
  ps !! k = None →
  match reserve ps t items with
  | Insufficient ps' _ | Reserved_ok ps' _ => ps' !! k = None
  end.
Proof.
  revert ps t. induction items as [|x items IH]; intros ps t Hnone; simpl; [done|].
  destruct (ps !! productId x) as [p|] eqn:Hp; [|by apply IH].
  destruct (stock p <? quantity x); [done|].
  apply IH. rewrite lookup_insert_ne; [done|congruence].
Qed.

Lemma create_items_rows items st oid :
  create_items st oid items =
  set_orderItems (orderItems st ++ rows_of (products st) oid items) st.
Proof.
  revert st. induction items as [|x items IH]; intros st; simpl.
  - rewrite app_nil_r. by destruct st.
  - unfold rows_of. simpl. destruct (products st !! productId x) as [p|]; simpl.
    + rewrite IH. simpl. unfold set_orderItems. simpl. by rewrite <- app_assoc.
    + apply IH.
Qed.

(** ** [router.post "/"] *)

Lemma createOrder_ok st caller items ps total :
  reserve (products st) 0 items = Reserved_ok ps total →
  createOrder st caller items =
  (mkStore ps (<[nextOrderId st := mkOrder (c_id caller) total "pending"]> (orders st))
           (orderItems st ++ rows_of ps (nextOrderId st) items)
           (users st) (nextOrderId st + 1),
   [Respond 201
      (BOrder (Some (load true
                 (mkStore ps
                    (<[nextOrderId st := mkOrder (c_id caller) total "pending"]> (orders st))
                    (orderItems st ++ rows_of ps (nextOrderId st) items)
                    (users st) (nextOrderId st + 1))
                 (nextOrderId st) (mkOrder (c_id caller) total "pending"))));
    SendEmail (c_email caller) "Order Confirmation"
              (confirmation_text (nextOrderId st) total)]).
Proof.
  intros Hrun. unfold createOrder. rewrite Hrun. unfold Order_create. simpl.
  rewrite create_items_rows. simpl. by rewrite lookup_insert_eq.
Qed.

(** C1, amended.  When every item of a CreateOrder request whose product
    exists finds enough stock as the loop reaches it, the call responds 201
    with the new order, the order is stored with status "pending" and a
    totalPrice equal to the sum of price * quantity over the items whose
    product exists, and every product's stock goes down by the total
    quantity of the items of the request that reference it, which is the
    item's own quantity for a product that one item only references. *)
Theorem createOrder_enough_stock st caller items :
  reaches_enough (products st) items →
  ∃ st' full,
    createOrder st caller items =
      (st', [Respond 201 (BOrder (Some full));
             SendEmail (c_email caller) "Order Confirmation"
               (confirmation_text (nextOrderId st) (charged (products st) items))])
    ∧ of_id full = nextOrderId st
    ∧ of_order full = mkOrder (c_id caller) (charged (products st) items) "pending"
    ∧ orders st' =
        <[nextOrderId st := mkOrder (c_id caller) (charged (products st) items) "pending"]>
          (orders st)
    ∧ debited (products st) (products st') items
    ∧ (∀ a x b, items = a ++ x :: b → productId x ∉ productId <$> (a ++ b) →
                demand (productId x) items = quantity x).
Proof.
  intros Hall.
  destruct (reserve_enough items (products st) 0 Hall) as (ps & Hrun & Hdeb).
  rewrite Z.add_0_l in Hrun.
  do 2 eexists. split; [by apply createOrder_ok|]. simpl.
  repeat split; [done|].
  intros a x b -> Hfresh. rewrite fmap_app, not_elem_of_app in Hfresh.
  destruct Hfresh as [Ha Hb].
  rewrite demand_app. simpl.
  rewrite (demand_absent _ a), (demand_absent _ b) by done.
  rewrite bool_decide_eq_true_2 by done. lia.
Qed.

(** C2, amended.  When the items before [it] all find enough stock as the
    loop reaches them and [it], whose product exists, finds less than its
    quantity, the call responds 400 with the message naming the product of
    [it], stores no order and no order item, and leaves every stock at what
    the earlier items made of it. *)
Theorem createOrder_insufficient st caller pre it post p :
  reaches_enough (products st) pre →
  products st !! productId it = Some p →
  stock p - demand (productId it) pre < quantity it →
  ∃ st',
    createOrder st caller (pre ++ it :: post) =
      (st', [Respond 400 (BError (insufficient_message (productId it)))])
    ∧ orders st' = orders st
    ∧ orderItems st' = orderItems st
    ∧ nextOrderId st' = nextOrderId st
    ∧ debited (products st) (products st') pre.
Proof.
  intros Hpre Hp Hlt.
  destruct (reserve_short pre it post (products st) 0 p Hpre Hp Hlt) as (ps & Hrun & Hdeb).
  exists (set_products ps st). unfold createOrder. by rewrite Hrun.
Qed.

Lemma rows_of_missing ps oid pre it post :
  ps !! productId it = None →
  rows_of ps oid (pre ++ it :: post) = rows_of ps oid (pre ++ post).
Proof.
  intros Hnone. unfold rows_of. rewrite !omap_app. simpl. by rewrite Hnone.
Qed.

Lemma rows_of_product ps oid items oi :
  oi ∈ rows_of ps oid items → is_Some (ps !! oi_productId oi).
Proof.
  unfold rows_of. rewrite list_elem_of_omap. intros (it & _ & Hoi).
  destruct (ps !! productId it) as [p|] eqn:Hp; simplify_eq/=. by eexists.
Qed.

(** C7.  An item of a CreateOrder request whose productId matches no
    product is passed over in silence: the call does and answers exactly
    what it would without that item (same responses, same total, same
    stocks, same order items), the product is still missing afterwards and
    no stored order item that the call added references it. *)
Theorem createOrder_missing_product st caller pre it post :
  products st !! productId it = None →
  createOrder st caller (pre ++ it :: post) = createOrder st caller (pre ++ post)
  ∧ products (createOrder st caller (pre ++ it :: post)).1 !! productId it = None
  ∧ ∃ added,
      orderItems (createOrder st caller (pre ++ it :: post)).1 = orderItems st ++ added
      ∧ Forall (λ oi, oi_productId oi ≠ productId it) added.
Proof.
  intros Hnone.
  pose proof (reserve_domain (pre ++ post) (products st) 0 _ Hnone) as Hdom.
  assert (createOrder st caller (pre ++ it :: post) = createOrder st caller (pre ++ post)) as Heq.
  { unfold createOrder. rewrite reserve_missing by done.
    destruct (reserve (products st) 0 (pre ++ post)) as [ps id|ps total]; [done|].
    unfold Order_create. simpl. rewrite !create_items_rows. simpl.
    by rewrite rows_of_missing. }
  split; [done|]. rewrite Heq. clear Heq.
  destruct (reserve (products st) 0 (pre ++ post)) as [ps id|ps total] eqn:Hrun.
  - unfold createOrder. rewrite Hrun. simpl. split; [done|].
    exists []. by rewrite app_nil_r.
  - rewrite (createOrder_ok _ _ _ _ _ Hrun). simpl. split; [done|].
    eexists. split; [done|]. apply Forall_forall. intros oi Hoi Heq.
    apply rows_of_product in Hoi as [q Hq]. congruence.
Qed.

(** C10.  A CreateOrder request with no item succeeds with 201: it stores
    an order with totalPrice 0 and status "pending" under the next
    identifier, adds no order item and changes no product. *)
Theorem createOrder_no_items st caller :
  ∃ full,
    createOrder st caller [] =
      (mkStore (products st)
               (<[nextOrderId st := mkOrder (c_id caller) 0 "pending"]> (orders st))
               (orderItems st) (users st) (nextOrderId st + 1),
       [Respond 201 (BOrder (Some full));
        SendEmail (c_email caller) "Order Confirmation"
                  (confirmation_text (nextOrderId st) 0)])
    ∧ of_id full = nextOrderId st
    ∧ of_order full = mkOrder (c_id caller) 0 "pending".
Proof.
  eexists. rewrite (createOrder_ok st caller [] (products st) 0 eq_refl).
  simpl. by rewrite app_nil_r.
Qed.

(** ** [router.delete "/:id"] *)

Lemma credited_nil ps : credited ps ps [].
Proof.
  intros k. simpl. destruct (ps !! k) as [p|]; simpl; [|done].
  by rewrite Z.add_0_r, set_stock_id.
Qed.

(** The loop of the delete handler gives every row's quantity back to its
    product, when the product exists. *)
Lemma restore_stock_credited ois ps : credited ps (restore_stock ps ois) ois.
Proof.
  revert ps. induction ois as [|oi ois IH]; intros ps; [apply credited_nil|].
  intros k. simpl.
  destruct (ps !! oi_productId oi) as [p|] eqn:Hp; rewrite (IH _ k).
  - destruct (decide (oi_productId oi = k)) as [<-|Hne].
    + rewrite lookup_insert_eq, Hp, bool_decide_eq_true_2 by done. simpl.
      unfold set_stock. simpl. do 2 f_equal. lia.
    + rewrite lookup_insert_ne, bool_decide_eq_false_2 by done.
      destruct (ps !! k); simpl; [|done]. do 2 f_equal.
  - destruct (ps !! k) as [q|] eqn:Hq; simpl; [|done].
    rewrite bool_decide_eq_false_2 by congruence. do 2 f_equal.
Qed.

Section RouteFacts.

Variable key_of_param : string → option Z.

Lemma Order_findByPk_Some st param k o :
  Order_findByPk key_of_param st param = Some (k, o) ↔
  key_of_param param = Some k ∧ orders st !! k = Some o.
Proof.
  unfold Order_findByPk. destruct (key_of_param param) as [j|]; simpl.
  - destruct (orders st !! j) as [o'|] eqn:Ho; simpl; split.
    + intros [= -> ->]. by rewrite <- Ho.
    + intros [[= ->] Ho']. rewrite Ho in Ho'. by simplify_eq.
    + done.
    + intros [[= ->] Ho']. congruence.
  - split; [done|]. by intros [? _].
Qed.

Lemma OrderItem_findAll_items_of st param k :
  key_of_param param = Some k →
  OrderItem_findAll key_of_param st param = items_of k st.
Proof.
  intros Hk. unfold OrderItem_findAll, items_of. apply list_filter_iff.
  intros oi. rewrite Hk. naive_solver.
Qed.

(** C4, amended.  A DeleteOrder call on an existing order responds 200
    with a deletion count of 1; afterwards every product that still exists
    holds its former stock plus the total quantity of the order's items
    that reference it, which is the item's own quantity for a product that
    one item of the order only references; no order item of the order
    remains and the order row is gone. *)
Theorem deleteOrder_existing st param k o :
  Order_findByPk key_of_param st param = Some (k, o) →
  ∃ st' mail,
    deleteOrder key_of_param st param =
      (st', Respond 200 (BDeleted "Order Deleted" 1) :: mail)
    ∧ credited (products st) (products st') (items_of k st)
    ∧ (∀ a x b, items_of k st = a ++ x :: b →
                oi_productId x ∉ oi_productId <$> (a ++ b) →
                returned (oi_productId x) (items_of k st) = oi_quantity x)
    ∧ orderItems st' = filter (λ oi, oi_orderId oi ≠ k) (orderItems st)
    ∧ Forall (λ oi, oi_orderId oi ≠ k) (orderItems st')
    ∧ orders st' = delete k (orders st)
    ∧ orders st' !! k = None.
Proof.
  intros Hfind. pose proof Hfind as [Hk Ho]%Order_findByPk_Some.
  unfold deleteOrder. rewrite Hfind.
  unfold Order_destroy, OrderItem_destroy. simpl.
  assert (∀ ps l, Order_findByPk key_of_param
                    (set_orderItems l (set_products ps st)) param = Some (k, o)) as ->.
  { intros ps l. by apply Order_findByPk_Some. }
  rewrite (OrderItem_findAll_items_of _ _ k) by done.
  do 2 eexists. split; [done|]. simpl.
  split; [apply restore_stock_credited|].
  split.
  { intros a x b Heq Hfresh. rewrite Heq.
    rewrite fmap_app, not_elem_of_app in Hfresh. destruct Hfresh as [Ha Hb].
    rewrite returned_app. simpl.
    rewrite (returned_absent _ a), (returned_absent _ b) by done.
    rewrite bool_decide_eq_true_2 by done. lia. }
  assert (filter (λ oi, key_of_param param ≠ Some (oi_orderId oi)) (orderItems st)
          = filter (λ oi, oi_orderId oi ≠ k) (orderItems st)) as ->.
  { apply list_filter_iff. intros oi. rewrite Hk. naive_solver. }
  split; [done|]. split.
  { apply Forall_forall. intros oi. rewrite list_elem_of_filter. tauto. }
  split; [done|]. apply lookup_delete_eq.
Qed.

(** C5.  A DeleteOrder call on an order id that matches no order responds
    404 "Order not found" and leaves the whole store as it was. *)
Theorem deleteOrder_absent st param :
  Order_findByPk key_of_param st param = None →
  deleteOrder key_of_param st param = (st, [Respond 404 (BError "Order not found")]).
Proof. intros Hnone. unfold deleteOrder. by rewrite Hnone. Qed.

(** ** [router.put "/:id"] *)

(** C8.  On an existing order UpdateOrderStatus stores the given string,
    whatever it is, as the order's status, keeps the order's other fields,
    every other order, the products, the order items and the users, and
    responds 200 with the updated row; on an absent order it responds 404
    and changes nothing. *)
Theorem updateOrderStatus_overwrites st param s :
  (∀ k o, Order_findByPk key_of_param st param = Some (k, o) →
     ∃ st' o',
       updateOrderStatus key_of_param st param s = (st', [Respond 200 (BOrderRow k o')])
       ∧ orders st' !! k = Some o'
       ∧ status o' = s ∧ userId o' = userId o ∧ totalPrice o' = totalPrice o
       ∧ (∀ j, j ≠ k → orders st' !! j = orders st !! j)
       ∧ products st' = products st ∧ orderItems st' = orderItems st
       ∧ users st' = users st ∧ nextOrderId st' = nextOrderId st)
  ∧ (Order_findByPk key_of_param st param = None →
     updateOrderStatus key_of_param st param s =
       (st, [Respond 404 (BError "Order not found")])).
Proof.
  split.
  - intros k o Hfind. unfold updateOrderStatus. rewrite Hfind.
    do 2 eexists. split; [done|]. simpl.
    split; [apply lookup_insert_eq|]. repeat split.
    intros j Hne. by rewrite lookup_insert_ne.
  - intros Hnone. unfold updateOrderStatus. by rewrite Hnone.
Qed.

End RouteFacts.

(** ** [router.get "/user-orders/:userId"] *)

Section Forbidden.

Variable key_of_param : string → option Z.
Variable parseInt : string → option Z.

(** C3, amended.  When the requester of ListOrdersForUser is neither the
    user asked for nor an admin, the 403 body is sent and the handler goes
    on, its branch having no return: it makes the 200 call with the orders
    found, which throws since the response has been sent, and the catch
    logs the error and fails to send its 500 likewise.  The client
    receives the 403 and nothing else, so the 403 is the last response of
    the call, no order is returned, and the store is left as it was. *)
Theorem listOrdersForUser_forbidden_403_only st uid caller :
  parseInt uid ≠ Some (c_id caller) →
  c_role caller ≠ "admin" →
  listOrdersForUser_try key_of_param parseInt st uid caller
    = res_json [Respond 403 (BError "Forbidden: not your order")] 200
               (BOrders (Order_findAll_user key_of_param st uid))
  ∧ listOrdersForUser_try key_of_param parseInt st uid caller
    = Thrown [Respond 403 (BError "Forbidden: not your order")]
  ∧ listOrdersForUser key_of_param parseInt st uid caller
    = (st, [Respond 403 (BError "Forbidden: not your order");
            LogError "Error fetching orders for user:"])
  ∧ codes (listOrdersForUser key_of_param parseInt st uid caller).2 = [403].
Proof.
  intros Hid Hrole. unfold listOrdersForUser, listOrdersForUser_try, forbidden.
  rewrite !bool_decide_eq_false_2 by done. done.
Qed.

End Forbidden.

(** ** [router.get "/"] *)

(** C9.  ListOrders answers 200 with the collection whenever the query
    returns one, the empty one included, and the collection holds every
    order; the 404 "No orders found" answer is given on a null result only,
    which the handler, whose query always returns a collection, never
    meets. *)
Theorem listOrders_collection :
  (∀ os, listOrders_respond (Some os) = [Respond 200 (BOrders os)])
  ∧ (∀ r, listOrders_respond r = [Respond 404 (BError "No orders found")] → r = None)
  ∧ (∀ st, listOrders st = (st, [Respond 200 (BOrders (Order_findAll st))]))
  ∧ (∀ st k o, orders st !! k = Some o → load false st k o ∈ Order_findAll st).
Proof.
  split; [done|]. split; [by intros [os|]|]. split; [done|].
  intros st k o Ho. unfold Order_findAll. apply list_elem_of_fmap.
  exists (k, o). split; [done|]. by apply elem_of_map_to_list.
Qed.

(** ** Stock never below zero *)

Lemma reserve_nonneg items ps t :
  nonneg_stocks ps →
  match reserve ps t items with
  | Insufficient ps' _ | Reserved_ok ps' _ => nonneg_stocks ps'
  end.
Proof.
  revert ps t. induction items as [|x items IH]; intros ps t Hps; simpl; [done|].
  destruct (ps !! productId x) as [p|] eqn:Hp; [|by apply IH].
  destruct (Z.ltb_spec (stock p) (quantity x)); [done|].
  apply IH. apply map_Forall_insert_2; [simpl; lia|done].
Qed.

Lemma restore_stock_nonneg ois ps :
  Forall (λ oi, 0 ≤ oi_quantity oi) ois →
  nonneg_stocks ps → nonneg_stocks (restore_stock ps ois).
Proof.
  intros Hq. revert ps. induction Hq as [|oi ois Hoi _ IH]; intros ps Hps; simpl; [done|].
  destruct (ps !! oi_productId oi) as [p|] eqn:Hp; [|by apply IH].
  apply IH. apply map_Forall_insert_2; [|done].
  pose proof (Hps _ _ Hp). simpl in *. lia.
Qed.

Lemma rows_of_nonneg ps oid items :
  Forall (λ it, 0 ≤ quantity it) items →
  Forall (λ oi, 0 ≤ oi_quantity oi) (rows_of ps oid items).
Proof.
  intros Hq. apply Forall_forall. intros oi.
  unfold rows_of. rewrite list_elem_of_omap. intros (it & Hin & Hoi).
  destruct (ps !! productId it); simplify_eq/=.
  by apply (proj1 (Forall_forall _ _) Hq).
Qed.

Lemma Forall_kept {A} (P Q : A → Prop) `{∀ x, Decision (Q x)} (l : list A) :
  Forall P l → Forall P (filter Q l).
Proof.
  rewrite !Forall_forall. intros Hl x. rewrite list_elem_of_filter.
  intros [_ Hx]. by apply Hl.
Qed.

Section Invariant.

Variable key_of_param : string → option Z.
Variable parseInt : string → option Z.

Lemma createOrder_keeps st caller items :
  Forall (λ it, 0 ≤ quantity it) items →
  stock_nonneg st → quantities_nonneg st →
  stock_nonneg (createOrder st caller items).1
  ∧ quantities_nonneg (createOrder st caller items).1.
Proof.
  intros Hitems Hst Hq.
  pose proof (reserve_nonneg items (products st) 0 Hst) as Hres.
  destruct (reserve (products st) 0 items) as [ps id|ps total] eqn:Hrun.
  - unfold createOrder. by rewrite Hrun.
  - rewrite (createOrder_ok _ _ _ _ _ Hrun). split; [done|].
    unfold quantities_nonneg. simpl. apply Forall_app. split; [done|].
    by apply rows_of_nonneg.
Qed.

Lemma deleteOrder_keeps st param :
  stock_nonneg st → quantities_nonneg st →
  stock_nonneg (deleteOrder key_of_param st param).1
  ∧ quantities_nonneg (deleteOrder key_of_param st param).1.
Proof.
  intros Hst Hq. unfold deleteOrder.
  destruct (Order_findByPk key_of_param st param) as [[k o]|] eqn:Hfind; [|done].
  unfold Order_destroy, OrderItem_destroy.
  assert (∀ ps l, Order_findByPk key_of_param
                    (set_orderItems l (set_products ps st)) param = Some (k, o)) as Hsame.
  { intros ps l. apply Order_findByPk_Some. by apply Order_findByPk_Some in Hfind. }
  simpl. rewrite Hsame. simpl. split.
  - apply restore_stock_nonneg; [|done]. by apply Forall_kept.
  - by apply Forall_kept.
Qed.

Lemma updateOrderStatus_products st param s :
  products (updateOrderStatus key_of_param st param s).1 = products st
  ∧ orderItems (updateOrderStatus key_of_param st param s).1 = orderItems st.
Proof.
  unfold updateOrderStatus.
  by destruct (Order_findByPk key_of_param st param) as [[k o]|].
Qed.

Lemma getOrder_store st param : (getOrder key_of_param st param).1 = st.
Proof.
  unfold getOrder. by destruct (Order_findByPk key_of_param st param) as [[k o]|].
Qed.

Lemma handle_keeps st r :
  request_nonneg r → stock_nonneg st → quantities_nonneg st →
  stock_nonneg (handle key_of_param parseInt st r).1
  ∧ quantities_nonneg (handle key_of_param parseInt st r).1.
Proof.
  intros Hr Hst Hq. destruct r as [|id|c items|id s|id|u c]; simpl.
  - done.
  - by rewrite getOrder_store.
  - by apply createOrder_keeps.
  - unfold stock_nonneg, quantities_nonneg.
    by destruct (updateOrderStatus_products st id s) as [-> ->].
  - by apply deleteOrder_keeps.
  - done.
Qed.

(** C6, amended.  Requests served one after the other, whose CreateOrder
    items all have a quantity >= 0, from a store in which every product's
    stock and every order item's quantity is >= 0, leave every product's
    stock (and every order item's quantity) >= 0; CreateOrder takes a
    quantity off a stock only when the stock covers it, whatever the
    quantity, and list, get, update-status and list-by-user leave the
    products as they are. *)
Theorem serve_keeps_stock_nonneg :
  (∀ rs st, Forall request_nonneg rs → stock_nonneg st → quantities_nonneg st →
            stock_nonneg (serve key_of_param parseInt st rs)
            ∧ quantities_nonneg (serve key_of_param parseInt st rs))
  ∧ (∀ st caller items, stock_nonneg st → stock_nonneg (createOrder st caller items).1)
  ∧ (∀ st r, match r with
             | CreateOrder _ _ | DeleteOrder _ => True
             | _ => products (handle key_of_param parseInt st r).1 = products st
             end).
Proof.
  split; [|split].
  - intros rs st Hrs. revert st.
    induction Hrs as [|r rs Hr _ IH]; intros st Hst Hq; simpl; [done|].
    destruct (handle_keeps st r Hr Hst Hq). by apply IH.
  - intros st caller items Hst.
    pose proof (reserve_nonneg items (products st) 0 Hst) as Hres.
    destruct (reserve (products st) 0 items) as [ps id|ps total] eqn:Hrun.
    + unfold createOrder. by rewrite Hrun.
    + by rewrite (createOrder_ok _ _ _ _ _ Hrun).
  - intros st [|id|c items|id s|id|u c]; simpl; try done.
    + by rewrite getOrder_store.
    + apply updateOrderStatus_products.
Qed.

End Invariant.

(** ** The statements on the sample shop *)

Lemma shop_stock_nonneg : stock_nonneg shop.
Proof.
  unfold stock_nonneg, nonneg_stocks.
  refine (bool_decide_unpack _ _). vm_compute. exact I.
Defined.

Lemma shop_reaches_enough :
  reaches_enough (products shop) [mkItem 1 1; mkItem 3 4; mkItem 1 2].
Proof.
  intros a x b p Heq Hp.
  destruct a as [|a1 [|a2 [|a3 a]]]; simplify_eq/=;
    vm_compute in Hp; simplify_eq/=; try (simpl; lia).
  destruct a; done.
Defined.

Lemma shop_reaches_enough_one : reaches_enough (products shop) [mkItem 1 3].
Proof.
  intros a x b p Heq Hp.
  destruct a as [|a1 a]; simplify_eq/=; vm_compute in Hp; simplify_eq/=; try (simpl; lia).
  destruct a; done.
Defined.

Lemma createOrder_enough_stock_witness :
  reaches_enough (products shop) [mkItem 1 1; mkItem 3 4; mkItem 1 2]
  ∧ ∃ st' full,
      createOrder shop ann [mkItem 1 1; mkItem 3 4; mkItem 1 2] =
        (st', [Respond 201 (BOrder (Some full));
               SendEmail "ann@example.org" "Order Confirmation"
                 "Your order has been placed successfully. Order ID: 1. Total Price: $30."])
      ∧ of_id full = 1
      ∧ of_order full = mkOrder 9 30 "pending"
      ∧ orders st' = <[1 := mkOrder 9 30 "pending"]> ∅
      ∧ debited (products shop) (products st') [mkItem 1 1; mkItem 3 4; mkItem 1 2]
      ∧ (∀ a x b, [mkItem 1 1; mkItem 3 4; mkItem 1 2] = a ++ x :: b →
                  productId x ∉ productId <$> (a ++ b) →
                  demand (productId x) [mkItem 1 1; mkItem 3 4; mkItem 1 2] = quantity x).
Proof.
  split; [exact shop_reaches_enough|].
  exact (createOrder_enough_stock shop ann _ shop_reaches_enough).
Defined.

(** C1 as stated fails on a request that names a product twice.  Both
    items of the first request find product 1 with stock 5 >= 3 in the
    store, yet the call answers 400; both items of the second find
    5 >= 1, the call succeeds, and the stock of product 1 goes from 5 to 3,
    not down by the item's quantity 1. *)
Lemma createOrder_repeated_product_counterexample :
  Forall (λ it, ∃ p, products shop !! productId it = Some p ∧ quantity it ≤ stock p)
         [mkItem 1 3; mkItem 1 3]
  ∧ (createOrder shop ann [mkItem 1 3; mkItem 1 3]).2
    = [Respond 400 (BError "Insufficient stock for product ID 1")]
  ∧ Forall (λ it, ∃ p, products shop !! productId it = Some p ∧ quantity it ≤ stock p)
           [mkItem 1 1; mkItem 1 1]
  ∧ codes (createOrder shop ann [mkItem 1 1; mkItem 1 1]).2 = [201]
  ∧ products shop !! 1 = Some (mkProduct 10 5)
  ∧ products (createOrder shop ann [mkItem 1 1; mkItem 1 1]).1 !! 1 = Some (mkProduct 10 3).
Proof.
  repeat split; try (vm_compute; reflexivity).
  - apply Forall_cons_2; [|apply Forall_cons_2; [|apply Forall_nil_2]];
      (exists (mkProduct 10 5); split; [reflexivity|simpl; lia]).
  - apply Forall_cons_2; [|apply Forall_cons_2; [|apply Forall_nil_2]];
      (exists (mkProduct 10 5); split; [reflexivity|simpl; lia]).
Qed.

Lemma createOrder_insufficient_witness :
  reaches_enough (products shop) [mkItem 1 3]
  ∧ products shop !! productId (mkItem 1 3) = Some (mkProduct 10 5)
  ∧ stock (mkProduct 10 5) - demand (productId (mkItem 1 3)) [mkItem 1 3] < quantity (mkItem 1 3)
  ∧ ∃ st',
      createOrder shop ann ([mkItem 1 3] ++ mkItem 1 3 :: [mkItem 2 1]) =
        (st', [Respond 400 (BError "Insufficient stock for product ID 1")])
      ∧ orders st' = orders shop
      ∧ orderItems st' = orderItems shop
      ∧ nextOrderId st' = nextOrderId shop
      ∧ debited (products shop) (products st') [mkItem 1 3].
Proof.
  split; [exact shop_reaches_enough_one|].
  split; [reflexivity|]. split; [simpl; lia|].
  apply (createOrder_insufficient shop ann [mkItem 1 3] (mkItem 1 3) [mkItem 2 1]
           (mkProduct 10 5)); [exact shop_reaches_enough_one|reflexivity|simpl; lia].
Defined.

(** C2 as stated, read against the stocks the request meets, fails on a
    request that names a product twice.  In the first request the first
    item asking for more than its product holds is the third, on product 2
    (stock 1 < 2), yet the 400 names product 1, whose second item found the
    stock the first had left.  In the second request the item asking 6 of
    product 1 (stock 5) is served, the earlier item having added 3 to the
    stock, and the call answers 201. *)
Lemma createOrder_first_short_counterexample :
  first_short (products shop) [mkItem 1 3; mkItem 1 3; mkItem 2 2] = Some (mkItem 2 2)
  ∧ (createOrder shop ann [mkItem 1 3; mkItem 1 3; mkItem 2 2]).2
    = [Respond 400 (BError "Insufficient stock for product ID 1")]
  ∧ first_short (products shop) [mkItem 1 (-3); mkItem 1 6] = Some (mkItem 1 6)
  ∧ codes (createOrder shop ann [mkItem 1 (-3); mkItem 1 6]).2 = [201].
Proof. repeat split; vm_compute; reflexivity. Qed.

Lemma createOrder_missing_product_witness :
  products shop !! productId (mkItem 3 4) = None
  ∧ createOrder shop ann ([mkItem 1 1] ++ mkItem 3 4 :: [mkItem 2 1])
    = createOrder shop ann ([mkItem 1 1] ++ [mkItem 2 1])
  ∧ products (createOrder shop ann ([mkItem 1 1] ++ mkItem 3 4 :: [mkItem 2 1])).1
      !! productId (mkItem 3 4) = None
  ∧ ∃ added,
      orderItems (createOrder shop ann ([mkItem 1 1] ++ mkItem 3 4 :: [mkItem 2 1])).1
        = orderItems shop ++ added
      ∧ Forall (λ oi, oi_productId oi ≠ productId (mkItem 3 4)) added.
Proof.
  split; [reflexivity|].
  apply (createOrder_missing_product shop ann [mkItem 1 1] (mkItem 3 4) [mkItem 2 1]).
  reflexivity.
Defined.

Lemma listOrdersForUser_forbidden_403_only_witness :
  decimal_key "9" ≠ Some (c_id bob)
  ∧ c_role bob ≠ "admin"
  ∧ listOrdersForUser_try decimal_key decimal_key shop_ordered "9" bob
    = res_json [Respond 403 (BError "Forbidden: not your order")] 200
               (BOrders (Order_findAll_user decimal_key shop_ordered "9"))
  ∧ listOrdersForUser_try decimal_key decimal_key shop_ordered "9" bob
    = Thrown [Respond 403 (BError "Forbidden: not your order")]
  ∧ listOrdersForUser decimal_key decimal_key shop_ordered "9" bob
    = (shop_ordered, [Respond 403 (BError "Forbidden: not your order");
                      LogError "Error fetching orders for user:"])
  ∧ codes (listOrdersForUser decimal_key decimal_key shop_ordered "9" bob).2 = [403].
Proof.
  assert (decimal_key "9" ≠ Some (c_id bob)) as Hid by (vm_compute; congruence).
  assert (c_role bob ≠ "admin") as Hrole by (vm_compute; congruence).
  split; [exact Hid|]. split; [exact Hrole|].
  exact (listOrdersForUser_forbidden_403_only decimal_key decimal_key shop_ordered "9" bob
           Hid Hrole).
Defined.

(** C3 as stated fails: bob, who is not user 9 and no admin, asks for the
    orders of user 9, who has one.  The client receives the 403 alone: the
    effects hold no 200 and no order, and the last response is the 403. *)
Lemma listOrdersForUser_no_200_counterexample :
  decimal_key "9" ≠ Some (c_id bob)
  ∧ c_role bob ≠ "admin"
  ∧ length (Order_findAll_user decimal_key shop_ordered "9") = 1%nat
  ∧ codes (listOrdersForUser decimal_key decimal_key shop_ordered "9" bob).2 = [403]
  ∧ last (listOrdersForUser decimal_key decimal_key shop_ordered "9" bob).2
    = Some (LogError "Error fetching orders for user:")
  ∧ headersSent [Respond 403 (BError "Forbidden: not your order")] = true.
Proof.
  split; [vm_compute; congruence|]. split; [vm_compute; congruence|].
  repeat split; vm_compute; reflexivity.
Qed.

Lemma deleteOrder_existing_witness :
  Order_findByPk decimal_key shop_ordered "1" = Some (1, mkOrder 9 27 "pending")
  ∧ ∃ st' mail,
      deleteOrder decimal_key shop_ordered "1" =
        (st', Respond 200 (BDeleted "Order Deleted" 1) :: mail)
      ∧ credited (products shop_ordered) (products st') (items_of 1 shop_ordered)
      ∧ (∀ a x b, items_of 1 shop_ordered = a ++ x :: b →
                  oi_productId x ∉ oi_productId <$> (a ++ b) →
                  returned (oi_productId x) (items_of 1 shop_ordered) = oi_quantity x)
      ∧ orderItems st' = filter (λ oi, oi_orderId oi ≠ 1) (orderItems shop_ordered)
      ∧ Forall (λ oi, oi_orderId oi ≠ 1) (orderItems st')
      ∧ orders st' = delete 1 (orders shop_ordered)
      ∧ orders st' !! 1 = None.
Proof.
  split; [vm_compute; reflexivity|].
  apply (deleteOrder_existing decimal_key shop_ordered "1" 1 (mkOrder 9 27 "pending")).
  vm_compute. reflexivity.
Defined.

(** C4 as stated fails on an order that holds two items of one product:
    order 1 of [shop_twice] has two items of product 1, one piece each;
    before the delete the stock of product 1 is 3, after it 5, which is
    not 3 plus the item's quantity 1. *)
Lemma deleteOrder_repeated_product_counterexample :
  Order_findByPk decimal_key shop_twice "1" = Some (1, mkOrder 9 20 "pending")
  ∧ items_of 1 shop_twice = [mkOrderItem 1 1 1 10; mkOrderItem 1 1 1 10]
  ∧ products shop_twice !! 1 = Some (mkProduct 10 3)
  ∧ codes (deleteOrder decimal_key shop_twice "1").2 = [200]
  ∧ products (deleteOrder decimal_key shop_twice "1").1 !! 1 = Some (mkProduct 10 5).
Proof. repeat split; vm_compute; reflexivity. Qed.

Lemma deleteOrder_absent_witness :
  Order_findByPk decimal_key shop_ordered "7" = None
  ∧ deleteOrder decimal_key shop_ordered "7" =
      (shop_ordered, [Respond 404 (BError "Order not found")]).
Proof.
  split; [vm_compute; reflexivity|].
  apply (deleteOrder_absent decimal_key shop_ordered "7"). vm_compute. reflexivity.
Defined.

Lemma serve_keeps_stock_nonneg_witness :
  Forall request_nonneg
         [CreateOrder ann [mkItem 1 2]; UpdateOrderStatus "1" "shipped"; DeleteOrder "1"]
  ∧ stock_nonneg shop
  ∧ quantities_nonneg shop
  ∧ stock_nonneg
      (serve decimal_key decimal_key shop
         [CreateOrder ann [mkItem 1 2]; UpdateOrderStatus "1" "shipped"; DeleteOrder "1"])
  ∧ quantities_nonneg
      (serve decimal_key decimal_key shop
         [CreateOrder ann [mkItem 1 2]; UpdateOrderStatus "1" "shipped"; DeleteOrder "1"]).
Proof.
  assert (Forall request_nonneg
            [CreateOrder ann [mkItem 1 2]; UpdateOrderStatus "1" "shipped"; DeleteOrder "1"])
    as Hrs.
  { apply Forall_cons_2; [|apply Forall_cons_2; [|apply Forall_cons_2; [|apply Forall_nil_2]]];
      simpl; try exact I.
    apply Forall_cons_2; [simpl; lia|apply Forall_nil_2]. }
  assert (quantities_nonneg shop) as Hq by apply Forall_nil_2.
  split; [exact Hrs|]. split; [exact shop_stock_nonneg|]. split; [exact Hq|].
  exact (proj1 (serve_keeps_stock_nonneg decimal_key decimal_key) _ shop Hrs shop_stock_nonneg Hq).
Defined.

(** C6 as stated fails when a quantity is negative.  From the sample shop,
    whose stocks are all >= 0 and which holds no order item, three requests
    served in turn (an order of -5 pieces of product 2, an order of 6
    pieces of it, the deletion of the first order) leave product 2 with a
    stock of -5. *)
Lemma serve_negative_quantity_counterexample :
  stock_nonneg shop
  ∧ orderItems shop = []
  ∧ codes (handle decimal_key decimal_key shop (CreateOrder ann [mkItem 2 (-5)])).2 = [201]
  ∧ products
      (serve decimal_key decimal_key shop
         [CreateOrder ann [mkItem 2 (-5)]; CreateOrder ann [mkItem 2 6]; DeleteOrder "1"])
      !! 2 = Some (mkProduct 7 (-5)).
Proof.
  split; [exact shop_stock_nonneg|]. repeat split; vm_compute; reflexivity.
Qed.

Lemma updateOrderStatus_overwrites_witness :
  Order_findByPk decimal_key shop_ordered "1" = Some (1, mkOrder 9 27 "pending")
  ∧ ∃ st' o',
      updateOrderStatus decimal_key shop_ordered "1" "on its way" =
        (st', [Respond 200 (BOrderRow 1 o')])
      ∧ orders st' !! 1 = Some o'
      ∧ status o' = "on its way" ∧ userId o' = 9 ∧ totalPrice o' = 27
      ∧ (∀ j, j ≠ 1 → orders st' !! j = orders shop_ordered !! j)
      ∧ products st' = products shop_ordered ∧ orderItems st' = orderItems shop_ordered
      ∧ users st' = users shop_ordered ∧ nextOrderId st' = nextOrderId shop_ordered.
Proof.
  split; [vm_compute; reflexivity|].
  apply (proj1 (updateOrderStatus_overwrites decimal_key shop_ordered "1" "on its way")
           1 (mkOrder 9 27 "pending")).
  vm_compute. reflexivity.
Defined.


(** The scenario of the specification: product 1 has price 10 and stock 5;
    an order of 3 pieces answers 201 with a total of 30 and leaves a stock
    of 2; an order of 10 pieces then answers 400 and leaves the stock at 2. *)
Example createOrder_scenario :
  codes (createOrder shop ann [mkItem 1 3]).2 = [201]
  ∧ orders (createOrder shop ann [mkItem 1 3]).1 !! 1 = Some (mkOrder 9 30 "pending")
  ∧ products (createOrder shop ann [mkItem 1 3]).1 !! 1 = Some (mkProduct 10 2)
  ∧ (createOrder (createOrder shop ann [mkItem 1 3]).1 ann [mkItem 1 10]).2
    = [Respond 400 (BError "Insufficient stock for product ID 1")]
  ∧ products (createOrder (createOrder shop ann [mkItem 1 3]).1 ann [mkItem 1 10]).1 !! 1
    = Some (mkProduct 10 2).
Proof. repeat split; vm_compute; reflexivity. Qed.


(** ** More on the first loop of [router.post "/"] *)

Lemma reaches_enough_nil ps : reaches_enough ps [].
Proof. intros a x b p Heq. by destruct a. Qed.

Lemma reaches_enough_snoc ps items x :
  reaches_enough ps items →
  (∀ p, ps !! productId x = Some p → quantity x ≤ stock p - demand (productId x) items) →
  reaches_enough ps (items ++ [x]).
Proof.
  intros Hitems Hx a y b p Heq Hp.
  destruct b as [|z b _] using rev_ind.
  - apply app_inj_tail in Heq as [-> ->]. by apply Hx.
  - rewrite app_comm_cons, app_assoc in Heq.
    apply app_inj_tail in Heq as [-> _]. by apply (Hitems a y b p).
Qed.

Lemma debited_skip ps ps' items x :
  ps !! productId x = None → debited ps ps' items → debited ps ps' (items ++ [x]).
Proof.
  intros Hnone Hdeb k. rewrite demand_app. simpl. rewrite (Hdeb k).
  destruct (ps !! k) as [q|] eqn:Hq; simpl; [|done].
  rewrite bool_decide_eq_false_2 by congruence. do 2 f_equal. lia.
Qed.

Lemma debited_take ps ps' items x p :
  ps !! productId x = Some p → debited ps ps' items →
  debited ps
    (<[productId x := set_stock (stock p - demand (productId x) items - quantity x) p]> ps')
    (items ++ [x]).
Proof.
  intros Hp Hdeb k. rewrite demand_app. simpl.
  destruct (decide (productId x = k)) as [<-|Hne].
  - rewrite lookup_insert_eq, Hp, bool_decide_eq_true_2 by done. simpl.
    unfold set_stock. simpl. do 2 f_equal. lia.
  - rewrite lookup_insert_ne, bool_decide_eq_false_2 by done.
    rewrite (Hdeb k). destruct (ps !! k); simpl; [|done]. do 2 f_equal. lia.
Qed.

(** What a completed first loop tells: every item found enough stock, the
    stocks went down by the quantities asked, and the total is the sum of
    price * quantity over the items whose product exists. *)
Lemma reserve_ok_inv items ps t ps' t' :
  reserve ps t items = Reserved_ok ps' t' →
  reaches_enough ps items ∧ debited ps ps' items ∧ t' = t + charged ps items.
Proof.
  revert ps' t'. induction items as [|x items IH] using rev_ind; intros ps' t' Hrun.
  - simpl in Hrun. injection Hrun as <- <-.
    split; [apply reaches_enough_nil|]. split; [apply debited_nil|]. simpl. lia.
  - rewrite reserve_app in Hrun.
    destruct (reserve ps t items) as [ps1 id|ps1 t1] eqn:Hpre; [done|].
    destruct (IH ps1 t1 eq_refl) as (Hre & Hdeb & ->).
    simpl in Hrun. rewrite (Hdeb (productId x)) in Hrun. rewrite charged_app. simpl.
    destruct (ps !! productId x) as [p|] eqn:Hp; simpl in Hrun.
    + destruct (Z.ltb_spec (stock p - demand (productId x) items) (quantity x)); [done|].
      injection Hrun as <- <-. split; [|split].
      * apply reaches_enough_snoc; [done|]. intros q Hq. by simplify_eq.
      * exact (debited_take _ _ _ _ _ Hp Hdeb).
      * simpl. lia.
    + injection Hrun as <- <-. split; [|split].
      * apply reaches_enough_snoc; [done|]. intros q Hq. congruence.
      * by apply debited_skip.
      * lia.
Qed.

Lemma createOrder_short st caller items ps id :
  reserve (products st) 0 items = Insufficient ps id →
  createOrder st caller items =
    (set_products ps st, [Respond 400 (BError (insufficient_message id))]).
Proof. intros Hrun. unfold createOrder. by rewrite Hrun. Qed.

(** X1.  A CreateOrder request with a well-formed list of items gets one
    response, 201 or 400: 201 exactly when every item whose product exists
    finds enough stock as the loop reaches it, 400 exactly when some item
    does not. *)
Theorem createOrder_succeeds_iff st caller items :
  (codes (createOrder st caller items).2 = [201]
   ∨ codes (createOrder st caller items).2 = [400])
  ∧ (codes (createOrder st caller items).2 = [201] ↔ reaches_enough (products st) items)
  ∧ (codes (createOrder st caller items).2 = [400] ↔ ¬ reaches_enough (products st) items).
Proof.
  destruct (reserve (products st) 0 items) as [ps id|ps total] eqn:Hrun.
  - rewrite (createOrder_short _ _ _ _ _ Hrun). simpl.
    assert (¬ reaches_enough (products st) items) as Hnot.
    { intros Hall. destruct (reserve_enough items (products st) 0 Hall) as (? & Hok & _).
      congruence. }
    split; [by right|].
    split; split; first [done | intros ?; by destruct Hnot].
  - rewrite (createOrder_ok _ _ _ _ _ Hrun). simpl.
    destruct (reserve_ok_inv _ _ _ _ _ Hrun) as (Hall & _).
    split; [by left|].
    split; split; first [done | intros Hnot; by destruct Hnot].
Qed.

Lemma demand_nonneg k items :
  Forall (λ it, 0 ≤ quantity it) items → 0 ≤ demand k items.
Proof.
  induction 1 as [|x items Hx _ IH]; simpl; [done|].
  destruct (bool_decide (productId x = k)); lia.
Qed.

(** X2.  When no quantity of a CreateOrder request is negative and some
    item asks of an existing product more than the store holds of it, the
    call answers 400 and stores no order and no order item. *)
Theorem createOrder_short_in_store st caller items it p :
  Forall (λ x, 0 ≤ quantity x) items →
  it ∈ items →
  products st !! productId it = Some p →
  stock p < quantity it →
  codes (createOrder st caller items).2 = [400]
  ∧ orders (createOrder st caller items).1 = orders st
  ∧ orderItems (createOrder st caller items).1 = orderItems st
  ∧ nextOrderId (createOrder st caller items).1 = nextOrderId st.
Proof.
  intros Hq Hin Hp Hlt.
  assert (¬ reaches_enough (products st) items) as Hnot.
  { intros Hall. apply list_elem_of_split in Hin as (a & b & ->).
    pose proof (Hall a it b p eq_refl Hp) as Hle.
    apply Forall_app in Hq as [Ha _].
    pose proof (demand_nonneg (productId it) a Ha). lia. }
  destruct (reserve (products st) 0 items) as [ps id|ps total] eqn:Hrun.
  - by rewrite (createOrder_short _ _ _ _ _ Hrun).
  - by destruct (reserve_ok_inv _ _ _ _ _ Hrun) as (Hall & _).
Qed.

Lemma reaches_enough_distinct ps items :
  NoDup (productId <$> items) →
  (∀ it p, it ∈ items → ps !! productId it = Some p → quantity it ≤ stock p) →
  reaches_enough ps items.
Proof.
  intros Hnd Hall a x b p -> Hp.
  rewrite fmap_app, fmap_cons in Hnd.
  apply NoDup_app in Hnd as (_ & Hdisj & _).
  rewrite demand_absent.
  - rewrite Z.sub_0_r. apply Hall; [|done]. apply elem_of_app. right. left.
  - intros Hin. apply (Hdisj _ Hin). left.
Qed.

(** X3.  When the items of a CreateOrder request name pairwise distinct
    products and each existing one holds at least the quantity asked, the
    call answers 201 and takes from every product named exactly the
    quantity of its item; a product that no item names keeps its stock. *)
Theorem createOrder_distinct_products st caller items :
  NoDup (productId <$> items) →
  (∀ it p, it ∈ items → products st !! productId it = Some p → quantity it ≤ stock p) →
  codes (createOrder st caller items).2 = [201]
  ∧ (∀ it p, it ∈ items → products st !! productId it = Some p →
       products (createOrder st caller items).1 !! productId it
       = Some (set_stock (stock p - quantity it) p))
  ∧ (∀ k, k ∉ productId <$> items →
       products (createOrder st caller items).1 !! k = products st !! k).
Proof.
  intros Hnd Hall.
  pose proof (reaches_enough_distinct _ _ Hnd Hall) as Henough.
  destruct (reserve_enough items (products st) 0 Henough) as (ps & Hrun & Hdeb).
  rewrite (createOrder_ok _ _ _ _ _ Hrun). simpl. split; [done|]. split.
  - intros it p Hin Hp. rewrite (Hdeb (productId it)), Hp. simpl.
    apply list_elem_of_split in Hin as (a & b & ->).
    rewrite fmap_app, fmap_cons in Hnd.
    apply NoDup_app in Hnd as (_ & Hab & Hb). apply NoDup_cons in Hb as [Hb _].
    rewrite demand_app. simpl.
    rewrite (demand_absent _ a), (demand_absent _ b), bool_decide_eq_true_2; try done.
    + do 2 f_equal. lia.
    + intros Hin. apply (Hab _ Hin). left.
  - intros k Hk. rewrite (Hdeb k), demand_absent by done.
    destruct (products st !! k) as [q|]; simpl; [|done].
    by rewrite Z.sub_0_r, set_stock_id.
Qed.

(** ** The rows of an order *)

Lemma filter_keeps_all {A} (P : A → Prop) `{∀ x, Decision (P x)} (l : list A) :
  Forall P l → filter P l = l.
Proof.
  induction 1 as [|x l Hx _ IH]; [done|]. by rewrite filter_cons_True, IH.
Qed.

Lemma filter_drops_all {A} (P : A → Prop) `{∀ x, Decision (P x)} (l : list A) :
  Forall (λ x, ¬ P x) l → filter P l = [].
Proof.
  induction 1 as [|x l Hx _ IH]; [done|]. by rewrite filter_cons_False, IH.
Qed.

Lemma rows_of_orderId ps oid items :
  Forall (λ oi, oi_orderId oi = oid) (rows_of ps oid items).
Proof.
  apply Forall_forall. intros oi. unfold rows_of. rewrite list_elem_of_omap.
  intros (it & _ & Hoi). by destruct (ps !! productId it); simplify_eq/=.
Qed.

Lemma rows_of_cons ps oid x items :
  rows_of ps oid (x :: items) =
  match ps !! productId x with
  | Some p => mkOrderItem oid (productId x) (quantity x) (price p) :: rows_of ps oid items
  | None => rows_of ps oid items
  end.
Proof. unfold rows_of. simpl. by destruct (ps !! productId x). Qed.

Lemma returned_rows_of ps oid items k :
  is_Some (ps !! k) → returned k (rows_of ps oid items) = demand k items.
Proof.
  intros [p Hp]. induction items as [|x items IH]; [done|].
  rewrite rows_of_cons. simpl.
  destruct (ps !! productId x) as [q|] eqn:Hq; simpl.
  - by rewrite IH.
  - rewrite IH, bool_decide_eq_false_2 by congruence. lia.
Qed.

Lemma order_value_app a b : order_value (a ++ b) = order_value a + order_value b.
Proof. induction a as [|x a IH]; simpl; lia. Qed.

Lemma order_value_rows_of ps oid items :
  order_value (rows_of ps oid items) = charged ps items.
Proof.
  induction items as [|x items IH]; [done|]. rewrite rows_of_cons. simpl.
  destruct (ps !! productId x) as [q|]; simpl; rewrite IH; lia.
Qed.

Lemma rows_of_ext ps ps' oid items :
  (∀ k, price <$> ps' !! k = price <$> ps !! k) →
  rows_of ps' oid items = rows_of ps oid items.
Proof.
  intros Hprice. induction items as [|x items IH]; [done|].
  rewrite !rows_of_cons, IH. pose proof (Hprice (productId x)) as Hx.
  destruct (ps' !! productId x), (ps !! productId x); simpl in Hx; try done.
  injection Hx as Hx. by rewrite Hx.
Qed.

Lemma debited_prices ps ps' items k :
  debited ps ps' items → price <$> ps' !! k = price <$> ps !! k.
Proof. intros Hdeb. rewrite (Hdeb k). by destruct (ps !! k). Qed.

Lemma credited_prices ps ps' ois k :
  credited ps ps' ois → price <$> ps' !! k = price <$> ps !! k.
Proof. intros Hcre. rewrite (Hcre k). by destruct (ps !! k). Qed.

(** The first loop changes no price and neither adds nor removes a
    product, whether it runs to its end or stops. *)
Lemma reserve_prices items ps t k :
  match reserve ps t items with
  | Insufficient ps' _ | Reserved_ok ps' _ => price <$> ps' !! k = price <$> ps !! k
  end.
Proof.
  revert ps t. induction items as [|x items IH]; intros ps t; simpl; [done|].
  destruct (ps !! productId x) as [p|] eqn:Hp; [|by apply IH].
  destruct (stock p <? quantity x); [done|].
  pose proof (IH (<[productId x:=set_stock (stock p - quantity x) p]> ps)
                 (t + price p * quantity x)) as Hrest.
  assert (price <$> <[productId x:=set_stock (stock p - quantity x) p]> ps !! k
          = price <$> ps !! k) as Hstep.
  { destruct (decide (productId x = k)) as [<-|Hne].
    - by rewrite lookup_insert_eq, Hp.
    - by rewrite lookup_insert_ne. }
  destruct (reserve _ _ items); by rewrite Hrest.
Qed.

(** X4.  A successful CreateOrder appends to the order items one row per
    item whose product exists, in the order of the request, each with the
    new order's identifier, the item's quantity and the price the product
    had in the store; the totalPrice of the order it stores is the sum of
    price * quantity over these rows. *)
Theorem createOrder_rows st caller items :
  reaches_enough (products st) items →
  orderItems (createOrder st caller items).1
    = orderItems st ++ rows_of (products st) (nextOrderId st) items
  ∧ totalPrice <$> orders (createOrder st caller items).1 !! nextOrderId st
    = Some (order_value (rows_of (products st) (nextOrderId st) items)).
Proof.
  intros Hall.
  destruct (reserve_enough items (products st) 0 Hall) as (ps & Hrun & Hdeb).
  rewrite (createOrder_ok _ _ _ _ _ Hrun). simpl.
  rewrite (rows_of_ext (products st) ps) by (intros k; by eapply debited_prices).
  split; [done|]. rewrite lookup_insert_eq. simpl.
  by rewrite order_value_rows_of.
Qed.

Section Composition.

Variable key_of_param : string → option Z.

Lemma deleteOrder_ok st param k o :
  key_of_param param = Some k → orders st !! k = Some o →
  deleteOrder key_of_param st param =
  (mkStore (restore_stock (products st) (items_of k st)) (delete k (orders st))
           (filter (λ oi, oi_orderId oi ≠ k) (orderItems st)) (users st) (nextOrderId st),
   Respond 200 (BDeleted "Order Deleted" 1)
     :: match users st !! userId o with
        | Some u => [SendEmail (email u) "Order Cancellation" (cancellation_text param)]
        | None => []
        end).
Proof.
  intros Hk Ho.
  assert (Order_findByPk key_of_param st param = Some (k, o)) as Hfind
    by by apply Order_findByPk_Some.
  unfold deleteOrder. rewrite Hfind. unfold Order_destroy, OrderItem_destroy. simpl.
  assert (∀ ps l, Order_findByPk key_of_param
                    (set_orderItems l (set_products ps st)) param = Some (k, o)) as ->.
  { intros ps l. by apply Order_findByPk_Some. }
  rewrite (OrderItem_findAll_items_of _ _ _ k) by done. simpl.
  assert (filter (λ oi, key_of_param param ≠ Some (oi_orderId oi)) (orderItems st)
          = filter (λ oi, oi_orderId oi ≠ k) (orderItems st)) as ->; [|done].
  apply list_filter_iff. intros oi. rewrite Hk. naive_solver.
Qed.

Lemma deleteOrder_none st param :
  Order_findByPk key_of_param st param = None →
  deleteOrder key_of_param st param = (st, [Respond 404 (BError "Order not found")]).
Proof. intros Hnone. unfold deleteOrder. by rewrite Hnone. Qed.

(** X5.  DeleteOrder undoes a successful CreateOrder: in a store whose
    counter names no order and no order item yet, deleting the order just
    created gives every product its stock back and leaves the orders, the
    order items and the users as they were before the creation; only the
    counter has moved on. *)
Theorem deleteOrder_undoes_createOrder st caller items param :
  reaches_enough (products st) items →
  key_of_param param = Some (nextOrderId st) →
  orders st !! nextOrderId st = None →
  Forall (λ oi, oi_orderId oi ≠ nextOrderId st) (orderItems st) →
  codes (deleteOrder key_of_param (createOrder st caller items).1 param).2 = [200]
  ∧ (deleteOrder key_of_param (createOrder st caller items).1 param).1
    = mkStore (products st) (orders st) (orderItems st) (users st) (nextOrderId st + 1).
Proof.
  intros Hall Hk Hfresh Hitems.
  destruct (reserve_enough items (products st) 0 Hall) as (ps & Hrun & Hdeb).
  rewrite (createOrder_ok _ _ _ _ _ Hrun). simpl.
  erewrite deleteOrder_ok; [|done|simpl; apply lookup_insert_eq]. simpl.
  split; [by destruct (users st !! c_id caller)|].
  unfold items_of. simpl. rewrite !filter_app.
  rewrite (filter_drops_all _ (orderItems st)) by done.
  rewrite (filter_keeps_all _ (rows_of _ _ _)) by apply rows_of_orderId.
  rewrite (filter_keeps_all _ (orderItems st)) by done.
  rewrite (filter_drops_all _ (rows_of _ _ _)).
  2:{ eapply Forall_impl; [apply rows_of_orderId|]. simpl. intros oi Hoi Hne. done. }
  rewrite app_nil_r, delete_insert_id by done. simpl. f_equal.
  apply map_eq. intros j.
  rewrite (restore_stock_credited _ _ j), (Hdeb j).
  destruct (products st !! j) as [p|] eqn:Hp; simpl; [|done].
  rewrite returned_rows_of by (rewrite (Hdeb j), Hp; by eexists).
  unfold set_stock. simpl. destruct p as [pr stk]. simpl. do 2 f_equal. lia.
Qed.

(** X6.  A second DeleteOrder on the same identifier answers 404 and
    changes nothing, whatever the first one did. *)
Theorem deleteOrder_twice st param :
  deleteOrder key_of_param (deleteOrder key_of_param st param).1 param
  = ((deleteOrder key_of_param st param).1, [Respond 404 (BError "Order not found")]).
Proof.
  destruct (Order_findByPk key_of_param st param) as [[k o]|] eqn:Hfind.
  - apply Order_findByPk_Some in Hfind as [Hk Ho].
    rewrite (deleteOrder_ok _ _ _ _ Hk Ho). simpl.
    apply deleteOrder_none. unfold Order_findByPk. rewrite Hk. simpl.
    by rewrite lookup_delete_eq.
  - rewrite (deleteOrder_none _ _ Hfind). simpl. by apply deleteOrder_none.
Qed.

(** X7.  Of two UpdateOrderStatus calls on the same identifier the last
    one wins: the store and the answer are those of the second call
    alone. *)
Theorem updateOrderStatus_last_wins st param s1 s2 :
  updateOrderStatus key_of_param (updateOrderStatus key_of_param st param s1).1 param s2
  = updateOrderStatus key_of_param st param s2.
Proof.
  unfold updateOrderStatus at 2 3.
  destruct (Order_findByPk key_of_param st param) as [[k o]|] eqn:Hfind; simpl.
  - apply Order_findByPk_Some in Hfind as [Hk Ho].
    unfold updateOrderStatus, Order_findByPk. rewrite Hk. simpl.
    rewrite lookup_insert_eq. simpl. unfold set_orders. simpl.
    by rewrite insert_insert_eq.
  - unfold updateOrderStatus. by rewrite Hfind.
Qed.

(** X8.  After a successful CreateOrder, GetOrder on the identifier of the
    new order answers 200 with that order: its owner is the caller, its
    status "pending", its totalPrice the sum charged, and the store is left
    as the creation made it. *)
Theorem getOrder_after_createOrder st caller items param :
  reaches_enough (products st) items →
  key_of_param param = Some (nextOrderId st) →
  ∃ full,
    getOrder key_of_param (createOrder st caller items).1 param
    = ((createOrder st caller items).1, [Respond 200 (BOrder (Some full))])
    ∧ of_id full = nextOrderId st
    ∧ of_order full = mkOrder (c_id caller) (charged (products st) items) "pending"
    ∧ of_user full = (λ u, (c_id caller, name u, email u)) <$> users st !! c_id caller.
Proof.
  intros Hall Hk.
  destruct (reserve_enough items (products st) 0 Hall) as (ps & Hrun & Hdeb).
  rewrite Z.add_0_l in Hrun.
  rewrite (createOrder_ok _ _ _ _ _ Hrun). simpl.
  unfold getOrder, Order_findByPk. rewrite Hk. simpl. rewrite lookup_insert_eq. simpl.
  eexists. split; [done|]. by simpl.
Qed.

End Composition.

(** ** Invariants kept by every request *)

Lemma same_price_is_Some (a b : option Product) :
  price <$> a = price <$> b → is_Some b → is_Some a.
Proof. intros Heq [q ->]. destruct a; [by eexists|done]. Qed.

Section Kept.

Variable key_of_param : string → option Z.
Variable parseInt : string → option Z.

Lemma handle_catalogue st r :
  users (handle key_of_param parseInt st r).1 = users st
  ∧ ∀ k, price <$> products (handle key_of_param parseInt st r).1 !! k = price <$> products st !! k.
Proof.
  destruct r as [|id|c items|id s|id|u c]; simpl; try done.
  - by rewrite getOrder_store.
  - destruct (reserve (products st) 0 items) as [ps i|ps total] eqn:Hrun.
    + rewrite (createOrder_short _ _ _ _ _ Hrun). simpl. split; [done|]. intros k.
      pose proof (reserve_prices items (products st) 0 k) as Hk. by rewrite Hrun in Hk.
    + rewrite (createOrder_ok _ _ _ _ _ Hrun). simpl. split; [done|]. intros k.
      pose proof (reserve_prices items (products st) 0 k) as Hk. by rewrite Hrun in Hk.
  - unfold updateOrderStatus.
    by destruct (Order_findByPk key_of_param st id) as [[k o]|].
  - destruct (Order_findByPk key_of_param st id) as [[k o]|] eqn:Hfind.
    + apply Order_findByPk_Some in Hfind as [Hk Ho].
      rewrite (deleteOrder_ok _ _ _ _ _ Hk Ho). simpl. split; [done|]. intros j.
      eapply credited_prices, restore_stock_credited.
    + by rewrite (deleteOrder_none _ _ _ Hfind).
Qed.

(** X9.  No request changes the users, the price of a product or the set
    of products: after any sequence of requests every product that existed
    still exists with its price, and no product has appeared. *)
Theorem serve_keeps_catalogue rs st :
  users (serve key_of_param parseInt st rs) = users st
  ∧ ∀ k, price <$> products (serve key_of_param parseInt st rs) !! k = price <$> products st !! k.
Proof.
  revert st. induction rs as [|r rs IH]; intros st; simpl; [done|].
  destruct (IH (handle key_of_param parseInt st r).1) as [Hu Hp].
  destruct (handle_catalogue st r) as [Hu' Hp'].
  split; [congruence|]. intros k. by rewrite Hp, Hp'.
Qed.

Lemma handle_ids_below st r :
  ids_below st →
  ids_below (handle key_of_param parseInt st r).1
  ∧ nextOrderId st ≤ nextOrderId (handle key_of_param parseInt st r).1.
Proof.
  intros [Hos Hitems]. destruct r as [|id|c items|id s|id|u c]; simpl.
  - done.
  - by rewrite getOrder_store.
  - destruct (reserve (products st) 0 items) as [ps i|ps total] eqn:Hrun.
    + by rewrite (createOrder_short _ _ _ _ _ Hrun).
    + rewrite (createOrder_ok _ _ _ _ _ Hrun). unfold ids_below. simpl.
      split; [|lia]. split.
      * apply map_Forall_insert_2; [lia|].
        intros k o Hk. pose proof (Hos k o Hk). simpl in *. lia.
      * apply Forall_app. split.
        -- eapply Forall_impl; [exact Hitems|]. simpl. intros. lia.
        -- eapply Forall_impl; [apply rows_of_orderId|]. simpl. intros. lia.
  - unfold updateOrderStatus.
    destruct (Order_findByPk key_of_param st id) as [[k o]|] eqn:Hfind; [|done].
    apply Order_findByPk_Some in Hfind as [_ Ho].
    unfold ids_below. simpl. split; [|done]. split; [|done].
    apply map_Forall_insert_2; [|done]. exact (Hos k o Ho).
  - destruct (Order_findByPk key_of_param st id) as [[k o]|] eqn:Hfind.
    + apply Order_findByPk_Some in Hfind as [Hk Ho].
      rewrite (deleteOrder_ok _ _ _ _ _ Hk Ho). unfold ids_below. simpl.
      split; [|done]. split.
      * intros j oj Hj. apply lookup_delete_Some in Hj as [_ Hj]. exact (Hos j oj Hj).
      * by apply Forall_kept.
    + by rewrite (deleteOrder_none _ _ _ Hfind).
  - done.
Qed.

(** X10.  In a store where every order and every order item has an
    identifier below the counter, this stays so after any sequence of
    requests and the counter never goes back; there a CreateOrder keeps
    every order already stored, so a new order never takes the place of
    another. *)
Theorem serve_keeps_ids_below st :
  ids_below st →
  (∀ rs, ids_below (serve key_of_param parseInt st rs)
         ∧ nextOrderId st ≤ nextOrderId (serve key_of_param parseInt st rs))
  ∧ (∀ caller items k o, orders st !! k = Some o →
       orders (createOrder st caller items).1 !! k = Some o).
Proof.
  intros Hids. split.
  - intros rs. revert st Hids. induction rs as [|r rs IH]; intros st Hids; simpl.
    + split; [done|lia].
    + destruct (handle_ids_below st r Hids) as [Hids' Hle].
      destruct (IH _ Hids') as [Hfin Hle']. split; [done|lia].
  - intros caller items k o Hk.
    destruct (reserve (products st) 0 items) as [ps i|ps total] eqn:Hrun.
    + by rewrite (createOrder_short _ _ _ _ _ Hrun).
    + rewrite (createOrder_ok _ _ _ _ _ Hrun). simpl.
      rewrite lookup_insert_ne; [done|].
      destruct Hids as [Hos _]. pose proof (Hos k o Hk). simpl in *. lia.
Qed.

Lemma handle_items_linked st r :
  items_linked st → items_linked (handle key_of_param parseInt st r).1.
Proof.
  intros Hl. destruct r as [|id|c items|id s|id|u c]; simpl.
  - done.
  - by rewrite getOrder_store.
  - pose proof (λ k, reserve_prices items (products st) 0 k) as Hprice.
    destruct (reserve (products st) 0 items) as [ps i|ps total] eqn:Hrun.
      rewrite (createOrder_short _ _ _ _ _ Hrun). unfold items_linked. simpl.
      eapply Forall_impl; [exact Hl|]. simpl. intros oi [Ho Hp]. split; [done|].
      eapply same_price_is_Some; [apply Hprice|done].
      rewrite (createOrder_ok _ _ _ _ _ Hrun). unfold items_linked. simpl.
      apply Forall_app. split.
      * eapply Forall_impl; [exact Hl|]. simpl. intros oi [Ho Hp]. split.
        -- apply lookup_insert_is_Some'. by right.
        -- eapply same_price_is_Some; [apply Hprice|done].
      * apply Forall_forall. intros oi Hoi. split.
        -- pose proof (proj1 (Forall_forall _ _) (rows_of_orderId ps _ items) oi Hoi) as ->.
           rewrite lookup_insert_eq. by eexists.
        -- by eapply rows_of_product.
  - unfold updateOrderStatus.
    destruct (Order_findByPk key_of_param st id) as [[k o]|] eqn:Hfind; [|done].
    unfold items_linked. simpl.
    eapply Forall_impl; [exact Hl|]. simpl. intros oi [Ho Hp]. split; [|done].
    apply lookup_insert_is_Some'. by right.
  - destruct (Order_findByPk key_of_param st id) as [[k o]|] eqn:Hfind.
    + apply Order_findByPk_Some in Hfind as [Hk Ho].
      rewrite (deleteOrder_ok _ _ _ _ _ Hk Ho). unfold items_linked. simpl.
      apply Forall_forall. intros oi [Hne Hin]%list_elem_of_filter.
      destruct (proj1 (Forall_forall _ _) Hl oi Hin) as [Hoi Hpi]. split.
      * by rewrite lookup_delete_ne.
      * eapply same_price_is_Some; [|exact Hpi].
        eapply credited_prices, restore_stock_credited.
    + by rewrite (deleteOrder_none _ _ _ Hfind).
  - done.
Qed.

(** X11.  When every order item belongs to a stored order and names a
    stored product, this stays so after any sequence of requests:
    CreateOrder writes rows for the order it has just stored and for
    products it has found, and DeleteOrder removes the rows of the order
    with the order. *)
Theorem serve_keeps_items_linked rs st :
  items_linked st → items_linked (serve key_of_param parseInt st rs).
Proof.
  revert st. induction rs as [|r rs IH]; intros st Hl; simpl; [done|].
  by apply IH, handle_items_linked.
Qed.

End Kept.

(** ** Totals and inventory *)

Lemma returned_split k k0 (ois : list OrderItem) :
  returned k (filter (λ oi, oi_orderId oi = k0) ois)
  + returned k (filter (λ oi, oi_orderId oi ≠ k0) ois) = returned k ois.
Proof.
  induction ois as [|oi ois IH]; [done|].
  destruct (decide (oi_orderId oi = k0)) as [Heq|Hne].
  - rewrite filter_cons_True, (filter_cons_False (λ oi, oi_orderId oi ≠ k0)) by tauto.
    simpl. lia.
  - rewrite filter_cons_False, (filter_cons_True (λ oi, oi_orderId oi ≠ k0)) by tauto.
    simpl. lia.
Qed.

Lemma items_of_others k k0 (ois : list OrderItem) :
  k ≠ k0 →
  filter (λ oi, oi_orderId oi = k) (filter (λ oi, oi_orderId oi ≠ k0) ois)
  = filter (λ oi, oi_orderId oi = k) ois.
Proof.
  intros Hne. rewrite list_filter_filter. apply list_filter_iff.
  intros oi. split; [tauto|]. intros ->. tauto.
Qed.

Section Accounts.

Variable key_of_param : string → option Z.
Variable parseInt : string → option Z.

Lemma handle_totals st r :
  ids_below st → totals_match st → totals_match (handle key_of_param parseInt st r).1.
Proof.
  intros [Hos Hitems] Ht. destruct r as [|id|c items|id s|id|u c]; simpl.
  - done.
  - by rewrite getOrder_store.
  - pose proof (λ k, reserve_prices items (products st) 0 k) as Hprice.
    destruct (reserve (products st) 0 items) as [ps i|ps total] eqn:Hrun.
    + by rewrite (createOrder_short _ _ _ _ _ Hrun).
    + destruct (reserve_ok_inv _ _ _ _ _ Hrun) as (_ & _ & ->).
      rewrite (createOrder_ok _ _ _ _ _ Hrun). unfold totals_match, items_of. simpl.
      intros k o Hk. rewrite filter_app.
      apply lookup_insert_Some in Hk as [[<- <-]|[Hne Hk]]; simpl.
      * rewrite (filter_drops_all _ (orderItems st)).
        2:{ eapply Forall_impl; [exact Hitems|]. simpl. intros. lia. }
        rewrite (filter_keeps_all _ (rows_of _ _ _)) by apply rows_of_orderId.
        simpl. by rewrite (rows_of_ext (products st) ps), order_value_rows_of.
      * rewrite (filter_drops_all _ (rows_of _ _ _)).
        2:{ eapply Forall_impl; [apply rows_of_orderId|]. simpl. intros. congruence. }
        rewrite app_nil_r. exact (Ht k o Hk).
  - unfold updateOrderStatus.
    destruct (Order_findByPk key_of_param st id) as [[k o]|] eqn:Hfind; [|done].
    apply Order_findByPk_Some in Hfind as [_ Ho].
    unfold totals_match, items_of. simpl. intros j oj Hj.
    apply lookup_insert_Some in Hj as [[<- <-]|[Hne Hj]].
    + exact (Ht k o Ho).
    + exact (Ht j oj Hj).
  - destruct (Order_findByPk key_of_param st id) as [[k o]|] eqn:Hfind.
    + apply Order_findByPk_Some in Hfind as [Hk Ho].
      rewrite (deleteOrder_ok _ _ _ _ _ Hk Ho). unfold totals_match, items_of. simpl.
      intros j oj Hj. apply lookup_delete_Some in Hj as [Hne Hj].
      rewrite items_of_others by done. exact (Ht j oj Hj).
    + by rewrite (deleteOrder_none _ _ _ Hfind).
  - done.
Qed.

(** X12.  In a store where identifiers are below the counter and every
    order's totalPrice is the sum of price * quantity over its order
    items, this stays so after any sequence of requests. *)
Theorem serve_keeps_totals rs st :
  ids_below st → totals_match st → totals_match (serve key_of_param parseInt st rs).
Proof.
  revert st. induction rs as [|r rs IH]; intros st Hids Ht; simpl; [done|].
  apply IH; [by apply handle_ids_below|by apply handle_totals].
Qed.

(** X13.  A request answered with a code other than 400 and 500 keeps, for
    every product, the sum of its stock and of the quantities that the
    order items hold of it: what CreateOrder takes from the stock is on the
    rows it writes, and what DeleteOrder removes with the rows goes back to
    the stock. *)
Theorem handle_conserves_inventory st r k p code :
  products st !! k = Some p →
  codes (handle key_of_param parseInt st r).2 = [code] →
  code ≠ 400 → code ≠ 500 →
  ∃ p', products (handle key_of_param parseInt st r).1 !! k = Some p'
        ∧ stock p' + returned k (orderItems (handle key_of_param parseInt st r).1)
          = stock p + returned k (orderItems st).
Proof.
  intros Hp Hcode H400 _. destruct r as [|id|c items|id s|id|u c]; simpl in *.
  - by exists p.
  - rewrite getOrder_store. by exists p.
  - destruct (reserve (products st) 0 items) as [ps i|ps total] eqn:Hrun.
    + rewrite (createOrder_short _ _ _ _ _ Hrun) in Hcode. simpl in Hcode. congruence.
    + destruct (reserve_ok_inv _ _ _ _ _ Hrun) as (_ & Hdeb & _).
      rewrite (createOrder_ok _ _ _ _ _ Hrun). simpl.
      eexists. split; [by rewrite (Hdeb k), Hp|].
      rewrite returned_app, returned_rows_of by (rewrite (Hdeb k), Hp; by eexists).
      simpl. lia.
  - unfold updateOrderStatus.
    destruct (Order_findByPk key_of_param st id) as [[j o]|]; by exists p.
  - destruct (Order_findByPk key_of_param st id) as [[j o]|] eqn:Hfind.
    + apply Order_findByPk_Some in Hfind as [Hj Ho].
      rewrite (deleteOrder_ok _ _ _ _ _ Hj Ho). simpl.
      eexists. split; [by rewrite (restore_stock_credited _ _ k), Hp|].
      simpl. pose proof (returned_split k j (orderItems st)). unfold items_of. lia.
    + rewrite (deleteOrder_none _ _ _ Hfind). by exists p.
  - by exists p.
Qed.

(** ** What is answered *)

(** X14.  The client receives exactly one response to every request, and
    it is the first effect of the handler, before any e-mail or logged
    error: a ListOrdersForUser by a requester who is neither the user asked
    for nor an admin is answered by the 403 alone.  CreateOrder and
    DeleteOrder send at most one e-mail, the other handlers none. *)
Theorem handle_responses st r :
  (∃ code body rest,
     (handle key_of_param parseInt st r).2 = Respond code body :: rest
     ∧ codes rest = [])
  ∧ match r with
    | CreateOrder _ _ | DeleteOrder _ =>
        (length (mails (handle key_of_param parseInt st r).2) ≤ 1)%nat
    | _ => mails (handle key_of_param parseInt st r).2 = []
    end.
Proof.
  destruct r as [|id|c items|id s|id|u c]; simpl.
  - split; [by do 3 eexists|done].
  - unfold getOrder. destruct (Order_findByPk key_of_param st id) as [[k o]|]; simpl;
      (split; [by do 3 eexists|done]).
  - unfold createOrder. destruct (reserve (products st) 0 items); simpl;
      (split; [by do 3 eexists|simpl; lia]).
  - unfold updateOrderStatus. destruct (Order_findByPk key_of_param st id) as [[k o]|];
      simpl; (split; [by do 3 eexists|done]).
  - destruct (Order_findByPk key_of_param st id) as [[k o]|] eqn:Hfind.
    + apply Order_findByPk_Some in Hfind as [Hk Ho].
      rewrite (deleteOrder_ok _ _ _ _ _ Hk Ho). simpl.
      destruct (users st !! userId o); simpl; (split; [by do 3 eexists|simpl; lia]).
    + rewrite (deleteOrder_none _ _ _ Hfind). simpl.
      split; [by do 3 eexists|simpl; lia].
  - unfold listOrdersForUser, listOrdersForUser_try.
    destruct (forbidden parseInt u c); simpl; (split; [by do 3 eexists|done]).
Qed.

(** X15.  ListOrdersForUser answers 200 exactly when the requester is the
    user asked for, [parseInt] of the identifier in the route being the
    requester's identifier, or an admin; the response, the only effect,
    then carries what the query for the orders of that user returns, and
    the store is left as it was. *)
Theorem listOrdersForUser_allowed st uid caller :
  (codes (listOrdersForUser key_of_param parseInt st uid caller).2 = [200]
   ↔ parseInt uid = Some (c_id caller) ∨ c_role caller = "admin")
  ∧ (parseInt uid = Some (c_id caller) ∨ c_role caller = "admin" →
     listOrdersForUser key_of_param parseInt st uid caller
     = (st, [Respond 200 (BOrders (Order_findAll_user key_of_param st uid))])).
Proof.
  unfold listOrdersForUser, listOrdersForUser_try, forbidden.
  destruct (decide (parseInt uid = Some (c_id caller))) as [Hid|Hid];
    destruct (decide (c_role caller = "admin")) as [Hrole|Hrole].
  - rewrite !bool_decide_eq_true_2 by done. simpl. split; [split|]; auto.
  - rewrite bool_decide_eq_true_2 by done. simpl. split; [split|]; auto.
  - rewrite bool_decide_eq_false_2, bool_decide_eq_true_2 by done. simpl.
    split; [split|]; auto.
  - rewrite !bool_decide_eq_false_2 by done. simpl.
    split; [split|]; [done|by intros [?|?]|by intros [?|?]].
Qed.

End Accounts.

Section Reads.

Variable key_of_param : string → option Z.

(** X17.  GetOrder never changes the store; it answers 404 "Order not
    found" exactly when no order matches the identifier, and otherwise 200
    with the order found under the key read: its row, and its owner's id,
    name and e-mail when the owner exists. *)
Theorem getOrder_answers st param :
  (getOrder key_of_param st param).1 = st
  ∧ ((getOrder key_of_param st param).2 = [Respond 404 (BError "Order not found")]
     ↔ Order_findByPk key_of_param st param = None)
  ∧ (∀ k o, key_of_param param = Some k → orders st !! k = Some o →
       ∃ full,
         (getOrder key_of_param st param).2 = [Respond 200 (BOrder (Some full))]
         ∧ of_id full = k ∧ of_order full = o
         ∧ of_user full = (λ u, (userId o, name u, email u)) <$> users st !! userId o).
Proof.
  split; [apply getOrder_store|]. unfold getOrder. split.
  - destruct (Order_findByPk key_of_param st param) as [[k o]|]; simpl; by split.
  - intros k o Hk Ho.
    assert (Order_findByPk key_of_param st param = Some (k, o)) as ->
      by by apply Order_findByPk_Some.
    by eexists.
Qed.

End Reads.

(** ** Who is written to *)

Section Mails.

Variable key_of_param : string → option Z.

(** X20.  CreateOrder writes to the caller's address when it answers 201
    and to nobody when it answers 400; DeleteOrder writes to the address of
    the order's owner when the order and its owner exist, and to nobody
    otherwise. *)
Theorem mails_recipients st :
  (∀ caller items,
     mails (createOrder st caller items).2
     = if decide (codes (createOrder st caller items).2 = [201])
       then [c_email caller] else [])
  ∧ (∀ param,
       mails (deleteOrder key_of_param st param).2
       = match Order_findByPk key_of_param st param with
         | Some (_, o) =>
             match users st !! userId o with Some u => [email u] | None => [] end
         | None => []
         end).
Proof.
  split.
  - intros caller items. unfold createOrder.
    by destruct (reserve (products st) 0 items).
  - intros param.
    destruct (Order_findByPk key_of_param st param) as [[k o]|] eqn:Hfind.
    + apply Order_findByPk_Some in Hfind as [Hk Ho].
      rewrite (deleteOrder_ok _ _ _ _ _ Hk Ho). simpl.
      by destruct (users st !! userId o).
    + by rewrite (deleteOrder_none _ _ _ Hfind).
Qed.

End Mails.

(** ** The further statements on the sample shop *)

Lemma shop_ids_below : ids_below shop.
Proof. split; [apply map_Forall_empty|apply Forall_nil_2]. Defined.

Lemma shop_items_linked : items_linked shop.
Proof. apply Forall_nil_2. Defined.

Lemma shop_totals_match : totals_match shop.
Proof. apply map_Forall_empty. Defined.

Lemma createOrder_short_in_store_witness :
  Forall (λ x, 0 ≤ quantity x) [mkItem 1 2; mkItem 2 5]
  ∧ mkItem 2 5 ∈ [mkItem 1 2; mkItem 2 5]
  ∧ products shop !! productId (mkItem 2 5) = Some (mkProduct 7 1)
  ∧ stock (mkProduct 7 1) < quantity (mkItem 2 5)
  ∧ codes (createOrder shop ann [mkItem 1 2; mkItem 2 5]).2 = [400]
  ∧ orders (createOrder shop ann [mkItem 1 2; mkItem 2 5]).1 = orders shop
  ∧ orderItems (createOrder shop ann [mkItem 1 2; mkItem 2 5]).1 = orderItems shop
  ∧ nextOrderId (createOrder shop ann [mkItem 1 2; mkItem 2 5]).1 = nextOrderId shop.
Proof.
  assert (Forall (λ x, 0 ≤ quantity x) [mkItem 1 2; mkItem 2 5]) as Hq.
  { apply Forall_cons_2; [simpl; lia|]. apply Forall_cons_2; [simpl; lia|apply Forall_nil_2]. }
  assert (mkItem 2 5 ∈ [mkItem 1 2; mkItem 2 5]) as Hin by (right; left).
  split; [exact Hq|]. split; [exact Hin|]. split; [reflexivity|]. split; [simpl; lia|].
  apply (createOrder_short_in_store shop ann _ (mkItem 2 5) (mkProduct 7 1) Hq Hin);
    [reflexivity|simpl; lia].
Defined.

Lemma shop_distinct_enough it p :
  it ∈ [mkItem 1 2; mkItem 2 1] → products shop !! productId it = Some p →
  quantity it ≤ stock p.
Proof.
  intros Hin Hp. apply elem_of_cons in Hin as [->|Hin].
  - vm_compute in Hp. injection Hp as <-. simpl. lia.
  - apply elem_of_cons in Hin as [->|Hin]; [|by apply elem_of_nil in Hin].
    vm_compute in Hp. injection Hp as <-. simpl. lia.
Defined.

Lemma shop_distinct : NoDup (productId <$> [mkItem 1 2; mkItem 2 1]).
Proof.
  simpl. apply NoDup_cons. split.
  - intros Hin. apply elem_of_cons in Hin as [Heq|Hin]; [done|by apply elem_of_nil in Hin].
  - apply NoDup_cons. split; [apply not_elem_of_nil|apply NoDup_nil_2].
Defined.

Lemma createOrder_distinct_products_witness :
  NoDup (productId <$> [mkItem 1 2; mkItem 2 1])
  ∧ codes (createOrder shop ann [mkItem 1 2; mkItem 2 1]).2 = [201]
  ∧ (∀ it p, it ∈ [mkItem 1 2; mkItem 2 1] → products shop !! productId it = Some p →
       products (createOrder shop ann [mkItem 1 2; mkItem 2 1]).1 !! productId it
       = Some (set_stock (stock p - quantity it) p))
  ∧ (∀ k, k ∉ productId <$> [mkItem 1 2; mkItem 2 1] →
       products (createOrder shop ann [mkItem 1 2; mkItem 2 1]).1 !! k = products shop !! k).
Proof.
  split; [exact shop_distinct|].
  exact (createOrder_distinct_products shop ann _ shop_distinct shop_distinct_enough).
Defined.

Lemma createOrder_rows_witness :
  reaches_enough (products shop) [mkItem 1 1; mkItem 3 4; mkItem 1 2]
  ∧ orderItems (createOrder shop ann [mkItem 1 1; mkItem 3 4; mkItem 1 2]).1
    = orderItems shop ++ rows_of (products shop) (nextOrderId shop)
                                 [mkItem 1 1; mkItem 3 4; mkItem 1 2]
  ∧ totalPrice <$> orders (createOrder shop ann [mkItem 1 1; mkItem 3 4; mkItem 1 2]).1
                     !! nextOrderId shop
    = Some (order_value (rows_of (products shop) (nextOrderId shop)
                                 [mkItem 1 1; mkItem 3 4; mkItem 1 2])).
Proof.
  split; [exact shop_reaches_enough|].
  exact (createOrder_rows shop ann _ shop_reaches_enough).
Defined.

Lemma deleteOrder_undoes_createOrder_witness :
  reaches_enough (products shop) [mkItem 1 1; mkItem 3 4; mkItem 1 2]
  ∧ decimal_key "1" = Some (nextOrderId shop)
  ∧ orders shop !! nextOrderId shop = None
  ∧ Forall (λ oi, oi_orderId oi ≠ nextOrderId shop) (orderItems shop)
  ∧ codes (deleteOrder decimal_key
             (createOrder shop ann [mkItem 1 1; mkItem 3 4; mkItem 1 2]).1 "1").2 = [200]
  ∧ (deleteOrder decimal_key
       (createOrder shop ann [mkItem 1 1; mkItem 3 4; mkItem 1 2]).1 "1").1
    = mkStore (products shop) (orders shop) (orderItems shop) (users shop)
              (nextOrderId shop + 1).
Proof.
  split; [exact shop_reaches_enough|]. split; [reflexivity|]. split; [reflexivity|].
  split; [apply Forall_nil_2|].
  apply (deleteOrder_undoes_createOrder decimal_key shop ann _ "1" shop_reaches_enough);
    [reflexivity|reflexivity|apply Forall_nil_2].
Defined.

Lemma getOrder_after_createOrder_witness :
  reaches_enough (products shop) [mkItem 1 1; mkItem 3 4; mkItem 1 2]
  ∧ decimal_key "1" = Some (nextOrderId shop)
  ∧ ∃ full,
      getOrder decimal_key (createOrder shop ann [mkItem 1 1; mkItem 3 4; mkItem 1 2]).1 "1"
      = ((createOrder shop ann [mkItem 1 1; mkItem 3 4; mkItem 1 2]).1,
         [Respond 200 (BOrder (Some full))])
      ∧ of_id full = nextOrderId shop
      ∧ of_order full
        = mkOrder (c_id ann)
                  (charged (products shop) [mkItem 1 1; mkItem 3 4; mkItem 1 2]) "pending"
      ∧ of_user full = (λ u, (c_id ann, name u, email u)) <$> users shop !! c_id ann.
Proof.
  split; [exact shop_reaches_enough|]. split; [reflexivity|].
  apply (getOrder_after_createOrder decimal_key shop ann _ "1" shop_reaches_enough).
  reflexivity.
Defined.

Lemma serve_keeps_ids_below_witness :
  ids_below shop
  ∧ ids_below (serve decimal_key decimal_key shop
                 [CreateOrder ann [mkItem 1 2]; CreateOrder bob [mkItem 2 1]; DeleteOrder "1"])
  ∧ nextOrderId shop
    ≤ nextOrderId (serve decimal_key decimal_key shop
                     [CreateOrder ann [mkItem 1 2]; CreateOrder bob [mkItem 2 1];
                      DeleteOrder "1"]).
Proof.
  split; [exact shop_ids_below|].
  exact (proj1 (serve_keeps_ids_below decimal_key decimal_key shop shop_ids_below) _).
Defined.

Lemma serve_keeps_items_linked_witness :
  items_linked shop
  ∧ items_linked (serve decimal_key decimal_key shop
                    [CreateOrder ann [mkItem 1 2; mkItem 3 1]; CreateOrder bob [mkItem 2 1];
                     DeleteOrder "1"]).
Proof.
  split; [exact shop_items_linked|].
  exact (serve_keeps_items_linked decimal_key decimal_key _ shop shop_items_linked).
Defined.

Lemma serve_keeps_totals_witness :
  ids_below shop ∧ totals_match shop
  ∧ totals_match (serve decimal_key decimal_key shop
                    [CreateOrder ann [mkItem 1 2; mkItem 2 1]; CreateOrder bob [mkItem 1 1];
                     UpdateOrderStatus "2" "paid"; DeleteOrder "1"]).
Proof.
  split; [exact shop_ids_below|]. split; [exact shop_totals_match|].
  exact (serve_keeps_totals decimal_key decimal_key _ shop shop_ids_below shop_totals_match).
Defined.

Lemma handle_conserves_inventory_witness :
  products shop_ordered !! 1 = Some (mkProduct 10 3)
  ∧ codes (handle decimal_key decimal_key shop_ordered (DeleteOrder "1")).2 = [200]
  ∧ 200 ≠ 400 ∧ 200 ≠ 500
  ∧ ∃ p', products (handle decimal_key decimal_key shop_ordered (DeleteOrder "1")).1 !! 1
          = Some p'
          ∧ stock p'
            + returned 1
                (orderItems (handle decimal_key decimal_key shop_ordered (DeleteOrder "1")).1)
            = stock (mkProduct 10 3) + returned 1 (orderItems shop_ordered).
Proof.
  assert (products shop_ordered !! 1 = Some (mkProduct 10 3)) as Hp
    by (vm_compute; reflexivity).
  assert (codes (handle decimal_key decimal_key shop_ordered (DeleteOrder "1")).2 = [200])
    as Hc by (vm_compute; reflexivity).
  split; [exact Hp|]. split; [exact Hc|]. split; [lia|]. split; [lia|].
  apply (handle_conserves_inventory decimal_key decimal_key shop_ordered (DeleteOrder "1")
           1 _ 200 Hp Hc); lia.
Defined.
